(** * GPS tracker of the SmartTourist front end

    A shallow embedding of [gps-tracker.js] (class [GPSTracker]) and of the
    [api] object of [api.js], with the properties of the position filter,
    of the tracking life cycle and of the reporter.

    Layout:
    - JavaScript numbers as an interface [JSNumber], with the real numbers
      as the instance used for the numeric facts about the haversine
      distance;
    - the data of the tracker (coordinates, positions, options, the
      [GPSTracker] object) and the part of the browser it talks to
      ([World]);
    - every method of the class, one definition per method, and the
      callbacks it hands to the platform; an [async] method is cut at its
      [await]s into the pieces that run without interruption;
    - the [api] object, runs of the page as lists of such pieces, and a
      fixture page;
    - the theorems: the distance over the real numbers, the position
      filter, the life cycle of the tracker, the reporter. *)

From Stdlib Require Import ZArith List String Bool Reals Lra Lia Machin.
From Stdlib Require Import DecimalString.
Import ListNotations.

Set Implicit Arguments.

(** ** JavaScript numbers

    The tracker only adds, subtracts, multiplies, divides and compares
    numbers, and calls [Math.sin], [Math.cos], [Math.sqrt], [Math.atan2]
    and [Math.PI].  The control logic is written once against this
    interface; it does not depend on how numbers are represented.  The
    facts about the value of the distance are proved for the real numbers:
    the rounding of JavaScript's doubles is not part of the model. *)

Class JSNumber (num : Type) : Type := {
  num_lit : Z -> num;                 (* an integer literal such as 180 or 6371e3 *)
  num_add : num -> num -> num;
  num_sub : num -> num -> num;
  num_mul : num -> num -> num;
  num_div : num -> num -> num;
  num_ge : num -> num -> bool;        (* x >= y *)
  Math_PI : num;
  Math_sin : num -> num;
  Math_cos : num -> num;
  Math_sqrt : num -> num;
  Math_atan2 : num -> num -> num
}.

Declare Scope js_scope.
Delimit Scope js_scope with js.
Notation "x + y" := (num_add x y) : js_scope.
Notation "x - y" := (num_sub x y) : js_scope.
Notation "x * y" := (num_mul x y) : js_scope.
Notation "x / y" := (num_div x y) : js_scope.
Notation "x >=? y" := (num_ge x y) (at level 70, no associativity) : js_scope.
Notation "# z" := (num_lit z%Z) (at level 1, format "# z") : js_scope.

(** *** The real numbers as numbers

    [Math.atan2 y x] is the angle of the point [(x, y)], in (-PI, PI].
    JavaScript's [Math.sqrt] of a negative number is [NaN]; the haversine
    formula only takes roots of [a] and [1 - a] with [0 <= a <= 1]. *)

Definition Rgeb (x y : R) : bool := if Rge_dec x y then true else false.

Definition Ratan2 (y x : R) : R :=
  if Rlt_dec 0 x then atan (y / x)
  else if Rlt_dec x 0 then
    (if Rle_dec 0 y then atan (y / x) + PI else atan (y / x) - PI)
  else if Rlt_dec 0 y then PI / 2
  else if Rlt_dec y 0 then - (PI / 2)
  else 0.

#[export] Instance RNumber : JSNumber R := {|
  num_lit := IZR;
  num_add := Rplus;
  num_sub := Rminus;
  num_mul := Rmult;
  num_div := Rdiv;
  num_ge := Rgeb;
  Math_PI := PI;
  Math_sin := sin;
  Math_cos := cos;
  Math_sqrt := sqrt;
  Math_atan2 := Ratan2
|}.

(** ** Data *)

Section Data.
Context {num : Type}.

(** [GeolocationCoordinates]: the optional readings are [null] when the
    device does not provide them. *)
Record Coordinates : Type := mkCoordinates {
  latitude : num;
  longitude : num;
  accuracy : num;
  altitude : option num;
  altitudeAccuracy : option num;
  heading : option num;
  speed : option num
}.

(** [GeolocationPosition]. *)
Record Position : Type := mkPosition {
  coords : Coordinates;
  timestamp : Z
}.

(** [this.options]. *)
Record Options : Type := mkOptions {
  enableHighAccuracy : bool;
  timeout : Z;
  maximumAge : Z;
  updateInterval : Z;
  minDistance : num;
  autoStart : bool
}.

(** The argument of the constructor: any subset of the option keys. *)
Record OptionsArg : Type := mkOptionsArg {
  arg_enableHighAccuracy : option bool;
  arg_timeout : option Z;
  arg_maximumAge : option Z;
  arg_updateInterval : option Z;
  arg_minDistance : option num;
  arg_autoStart : option bool
}.

(** The body sent to the backend by [savePositionToBackend]. *)
Record LocationData : Type := mkLocationData {
  ld_latitude : num;
  ld_longitude : num;
  ld_accuracy : num;
  ld_altitude : option num;
  ld_altitudeAccuracy : option num;
  ld_heading : option num;
  ld_speed : option num;
  ld_timestamp : Z
}.

End Data.

Arguments Coordinates : clear implicits.
Arguments Position : clear implicits.
Arguments Options : clear implicits.
Arguments OptionsArg : clear implicits.
Arguments LocationData : clear implicits.

(** ** The distance *)

Section Distance.
Context {num : Type} `{JSNumber num}.
Local Open Scope js_scope.

(** [calculateDistance(lat1, lon1, lat2, lon2)], lines 163-176. *)
Definition calculateDistance (lat1 lon1 lat2 lon2 : num) : num :=
  let R := #6371000 in
  let phi1 := lat1 * Math_PI / #180 in
  let phi2 := lat2 * Math_PI / #180 in
  let dphi := (lat2 - lat1) * Math_PI / #180 in
  let dlambda := (lon2 - lon1) * Math_PI / #180 in
  let a := Math_sin (dphi / #2) * Math_sin (dphi / #2) +
           Math_cos phi1 * Math_cos phi2 *
           Math_sin (dlambda / #2) * Math_sin (dlambda / #2) in
  let c := #2 * Math_atan2 (Math_sqrt a) (Math_sqrt (#1 - a)) in
  R * c.

End Distance.

(** The haversine formula in the words of the specification, over the real
    numbers: [a = sin²(Δφ/2) + cos φ1 · cos φ2 · sin²(Δλ/2)],
    [c = 2 · atan2(√a, √(1 − a))], [distance = R · c], with the latitudes in
    radians and the differences of the coordinates in radians. *)
Module Spec.
Local Open Scope R_scope.



End Spec.

(** ** The tracker object and the browser around it *)

(** [permission.state] of the Permissions API. *)
Inductive PermissionState : Type := granted | denied | prompt.

(** [this.intervalId]: the constructor does not set it ([undefined]),
    [stopTracking] sets it to [null], and [setInterval] returns an integer
    greater than zero. *)
Inductive TimerRef : Type :=
  | timer_undefined
  | timer_null
  | timer_id (id : positive).

(** [GeolocationPositionError], with its constants [PERMISSION_DENIED = 1],
    [POSITION_UNAVAILABLE = 2] and [TIMEOUT = 3]. *)
Record PositionError : Type := mkPositionError {
  code : Z;
  message : string
}.

Definition PERMISSION_DENIED : Z := 1.
Definition POSITION_UNAVAILABLE : Z := 2.
Definition TIMEOUT : Z := 3.

(** A value stored under a key of a JavaScript object: a function, or
    anything else. *)
Inductive JSValue : Type :=
  | JSFunction (name : string)
  | JSData.

(** An object literal: its keys and values, in the order written. *)
Definition JSObject : Type := list (string * JSValue).

Fixpoint get_property (o : JSObject) (key : string) : option JSValue :=
  match o with
  | [] => None
  | (k, v) :: rest => if String.eqb k key then Some v else get_property rest key
  end.

(** How a statement or a call ends: normally with a value, or by throwing. *)
Inductive Completion (A : Type) : Type :=
  | Normal (a : A)
  | Throw (e : string).
Arguments Normal {A} a.
Arguments Throw {A} e.

(** The state of the promise returned by an [async] method when its caller
    gets control back for good. *)
Inductive Promise (A : Type) : Type :=
  | Resolved (a : A)
  | Rejected (e : string)
  | Pending.
Arguments Resolved {A} a.
Arguments Rejected {A} e.
Arguments Pending {A}.

(** What the backend call answers: no object at all, or an object whose
    [error] key may be set. *)
Inductive Response : Type :=
  | response_undefined
  | response_object (error : option string).

Inductive Level : Type := Log | Warn | Error.

(** A line of the console: level, text and the argument printed after it. *)
Definition ConsoleEntry : Type := (Level * string * string)%type.

Local Open Scope string_scope.

Section Tracker.
Context {num : Type} `{JSNumber num}.
Local Open Scope js_scope.

(** The fields of a [GPSTracker] instance. *)
Record GPSTracker : Type := mkGPSTracker {
  options : Options num;
  watchId : option Z;                         (* null, or the handle of watchPosition *)
  lastPosition : option (Position num);       (* null, or the last accepted position *)
  isTracking : bool;
  userConsent : bool;
  initialized : bool;
  permissionState : option PermissionState;   (* undefined until initialize() *)
  intervalId : TimerRef
}.

(** The detail of a ['gps-position-update'] event. *)
Record PositionUpdate : Type := mkPositionUpdate {
  detail_position : Position num;
  detail_coords : Coordinates num;
  detail_timestamp : string
}.

(** The tracker together with the parts of [navigator] and [window] it
    reads and writes. *)
Record World : Type := mkWorld {
  gpsTracker : GPSTracker;                    (* window.gpsTracker *)
  geolocation : bool;                         (* navigator.geolocation is defined *)
  watches : list Z;                           (* active watchPosition subscriptions *)
  next_watch : Z;                             (* the handle watchPosition returns next *)
  timers : list positive;                     (* active setInterval timers *)
  next_timer : positive;                      (* the handle setInterval returns next *)
  oneshots : nat;                             (* calls of getCurrentPosition so far *)
  onchange : bool;                            (* permission.onchange is installed *)
  api : option JSObject;                      (* window.api *)
  showMessage : bool;                         (* window.showMessage is defined *)
  messages : list (string * string * Z);      (* calls of window.showMessage *)
  events : list PositionUpdate;               (* events dispatched on window *)
  requests : list (string * LocationData num);(* backend calls awaiting their answer *)
  console : list ConsoleEntry;
  clock : string                              (* what new Date().toISOString() returns now *)
}.

(** *** Field updates *)

Definition set_tracker (t : GPSTracker) (w : World) : World :=
  mkWorld t (geolocation w) (watches w) (next_watch w) (timers w) (next_timer w)
    (oneshots w) (onchange w) (api w) (showMessage w) (messages w) (events w)
    (requests w) (console w) (clock w).

Definition set_watches (l : list Z) (n : Z) (w : World) : World :=
  mkWorld (gpsTracker w) (geolocation w) l n (timers w) (next_timer w)
    (oneshots w) (onchange w) (api w) (showMessage w) (messages w) (events w)
    (requests w) (console w) (clock w).

Definition set_timers (l : list positive) (n : positive) (w : World) : World :=
  mkWorld (gpsTracker w) (geolocation w) (watches w) (next_watch w) l n
    (oneshots w) (onchange w) (api w) (showMessage w) (messages w) (events w)
    (requests w) (console w) (clock w).

Definition set_oneshots (n : nat) (w : World) : World :=
  mkWorld (gpsTracker w) (geolocation w) (watches w) (next_watch w) (timers w)
    (next_timer w) n (onchange w) (api w) (showMessage w) (messages w) (events w)
    (requests w) (console w) (clock w).

Definition set_onchange (b : bool) (w : World) : World :=
  mkWorld (gpsTracker w) (geolocation w) (watches w) (next_watch w) (timers w)
    (next_timer w) (oneshots w) b (api w) (showMessage w) (messages w) (events w)
    (requests w) (console w) (clock w).

Definition set_messages (m : list (string * string * Z)) (w : World) : World :=
  mkWorld (gpsTracker w) (geolocation w) (watches w) (next_watch w) (timers w)
    (next_timer w) (oneshots w) (onchange w) (api w) (showMessage w) m (events w)
    (requests w) (console w) (clock w).

Definition set_events (e : list PositionUpdate) (w : World) : World :=
  mkWorld (gpsTracker w) (geolocation w) (watches w) (next_watch w) (timers w)
    (next_timer w) (oneshots w) (onchange w) (api w) (showMessage w) (messages w) e
    (requests w) (console w) (clock w).

Definition set_requests (r : list (string * LocationData num)) (w : World) : World :=
  mkWorld (gpsTracker w) (geolocation w) (watches w) (next_watch w) (timers w)
    (next_timer w) (oneshots w) (onchange w) (api w) (showMessage w) (messages w)
    (events w) r (console w) (clock w).

Definition set_console (c : list ConsoleEntry) (w : World) : World :=
  mkWorld (gpsTracker w) (geolocation w) (watches w) (next_watch w) (timers w)
    (next_timer w) (oneshots w) (onchange w) (api w) (showMessage w) (messages w)
    (events w) (requests w) c (clock w).

Definition set_clock (s : string) (w : World) : World :=
  mkWorld (gpsTracker w) (geolocation w) (watches w) (next_watch w) (timers w)
    (next_timer w) (oneshots w) (onchange w) (api w) (showMessage w) (messages w)
    (events w) (requests w) (console w) s.

Definition set_watchId (v : option Z) (t : GPSTracker) : GPSTracker :=
  mkGPSTracker (options t) v (lastPosition t) (isTracking t) (userConsent t)
    (initialized t) (permissionState t) (intervalId t).

Definition set_lastPosition (v : option (Position num)) (t : GPSTracker) : GPSTracker :=
  mkGPSTracker (options t) (watchId t) v (isTracking t) (userConsent t)
    (initialized t) (permissionState t) (intervalId t).

Definition set_isTracking (v : bool) (t : GPSTracker) : GPSTracker :=
  mkGPSTracker (options t) (watchId t) (lastPosition t) v (userConsent t)
    (initialized t) (permissionState t) (intervalId t).

Definition set_userConsent (v : bool) (t : GPSTracker) : GPSTracker :=
  mkGPSTracker (options t) (watchId t) (lastPosition t) (isTracking t) v
    (initialized t) (permissionState t) (intervalId t).

Definition set_initialized (v : bool) (t : GPSTracker) : GPSTracker :=
  mkGPSTracker (options t) (watchId t) (lastPosition t) (isTracking t) (userConsent t)
    v (permissionState t) (intervalId t).

Definition set_permissionState (v : option PermissionState) (t : GPSTracker) : GPSTracker :=
  mkGPSTracker (options t) (watchId t) (lastPosition t) (isTracking t) (userConsent t)
    (initialized t) v (intervalId t).

Definition set_intervalId (v : TimerRef) (t : GPSTracker) : GPSTracker :=
  mkGPSTracker (options t) (watchId t) (lastPosition t) (isTracking t) (userConsent t)
    (initialized t) (permissionState t) v.

(** [this.f = v] *)
Definition this (f : GPSTracker -> GPSTracker) (w : World) : World :=
  set_tracker (f (gpsTracker w)) w.

(** *** The platform calls *)

Definition console_print (l : Level) (text arg : string) (w : World) : World :=
  set_console (console w ++ [(l, text, arg)]) w.

(** [navigator.geolocation.watchPosition]: a new active subscription. *)
Definition watchPosition (w : World) : Z * World :=
  (next_watch w, set_watches (watches w ++ [next_watch w]) (next_watch w + 1)%Z w).

(** [navigator.geolocation.clearWatch(id)] *)
Definition clearWatch (id : Z) (w : World) : World :=
  set_watches (filter (fun i => negb (Z.eqb i id)) (watches w)) (next_watch w) w.

(** [setInterval(callback, delay)]: a new active timer. *)
Definition setInterval (w : World) : positive * World :=
  (next_timer w, set_timers (timers w ++ [next_timer w]) (Pos.succ (next_timer w)) w).

(** [clearInterval(id)] *)
Definition clearInterval (id : positive) (w : World) : World :=
  set_timers (filter (fun i => negb (Pos.eqb i id)) (timers w)) (next_timer w) w.

(** [navigator.geolocation.getCurrentPosition(success, error, options)]:
    the request is on its way; one of its two callbacks runs later. *)
Definition getCurrentPosition (w : World) : World :=
  set_oneshots (S (oneshots w)) w.

End Tracker.

Arguments GPSTracker : clear implicits.
Arguments PositionUpdate : clear implicits.
Arguments World : clear implicits.

(** ** The methods of [GPSTracker] *)

(** [window.api.saveLocation]: looking the method up throws a [TypeError]
    when [window.api] is missing or has no function under that key. *)
Definition window_api_saveLocation (a : option JSObject) : Completion string :=
  match a with
  | None => Throw "TypeError: window.api is undefined"
  | Some o =>
      match get_property o "saveLocation" with
      | Some (JSFunction f) => Normal f
      | _ => Throw "TypeError: window.api.saveLocation is not a function"
      end
  end.

(** [if (response.error)]: set and not the empty string. *)
Definition truthy (s : option string) : bool :=
  match s with
  | Some e => negb (String.eqb e "")
  | None => false
  end.

(** What [navigator.permissions.query] does: it resolves to a state, or the
    call fails (no Permissions API, or the name is not supported). *)
Inductive PermissionQuery : Type :=
  | query_resolves (s : PermissionState)
  | query_fails (e : string).

Definition state_name (s : PermissionState) : string :=
  match s with
  | granted => "granted"
  | denied => "denied"
  | prompt => "prompt"
  end.

Section Methods.
Context {num : Type} `{JSNumber num}.
Local Open Scope js_scope.

Abbreviation World := (World num).
Abbreviation GPSTracker := (GPSTracker num).
Abbreviation Position := (Position num).

(** *** [constructor(options = {})], lines 6-28 *)

Definition default_options : Options num :=
  mkOptions true 10000 0 60000 #10 false.

Definition or_default {A : Type} (o : option A) (d : A) : A :=
  match o with
  | Some v => v
  | None => d
  end.

(** [{ ...defaults, ...options }] *)
Definition spread (d : Options num) (o : OptionsArg num) : Options num :=
  mkOptions
    (or_default (arg_enableHighAccuracy o) (enableHighAccuracy d))
    (or_default (arg_timeout o) (timeout d))
    (or_default (arg_maximumAge o) (maximumAge d))
    (or_default (arg_updateInterval o) (updateInterval d))
    (or_default (arg_minDistance o) (minDistance d))
    (or_default (arg_autoStart o) (autoStart d)).

Definition constructor (o : OptionsArg num) : GPSTracker :=
  mkGPSTracker (spread default_options o)
    None              (* this.watchId = null *)
    None              (* this.lastPosition = null *)
    false             (* this.isTracking = false *)
    false             (* this.userConsent = false *)
    false             (* this.initialized = false *)
    None              (* this.permissionState is not set *)
    timer_undefined   (* this.intervalId is not set *).

(** *** [showWarning(message)], lines 232-240 *)
Definition showWarning (message : string) (w : World) : World :=
  let w := console_print Warn "GPS Warning:" message w in
  if showMessage w
  then set_messages (messages w ++ [(message, "warning", 5000%Z)]) w
  else w.

(** *** [handleError(error)], lines 208-229 *)
Definition handleError (error : PositionError) (w : World) : World :=
  let w := console_print Warn "GPS Error:" (message error) w in
  let '(message, w) :=
    if (code error =? PERMISSION_DENIED)%Z then
      ("Location permission denied. Please enable location services.",
       this (set_userConsent false) w)
    else if (code error =? POSITION_UNAVAILABLE)%Z then
      ("Location information unavailable.", w)
    else if (code error =? TIMEOUT)%Z then
      ("Location request timed out.", w)
    else
      ("Unknown location error.", w) in
  showWarning message w.

(** *** [shouldSavePosition(newPosition)], lines 144-160 *)
Definition shouldSavePosition (t : GPSTracker) (newPosition : Position) : bool :=
  match lastPosition t with
  | None => true
  | Some last =>
      let oldCoords := coords last in
      let newCoords := coords newPosition in
      let distance :=
        calculateDistance (latitude oldCoords) (longitude oldCoords)
                          (latitude newCoords) (longitude newCoords) in
      distance >=? minDistance (options t)
  end.

(** *** [savePositionToBackend(position)], lines 179-205

    The part up to the [await]: the method either has its answer already
    (the call threw and the [catch] turned it into [false]) or waits for the
    backend. *)
Definition savePositionToBackend (position : Position) (w : World)
  : Promise bool * World :=
  let locationData :=
    mkLocationData
      (latitude (coords position)) (longitude (coords position))
      (accuracy (coords position)) (altitude (coords position))
      (altitudeAccuracy (coords position)) (heading (coords position))
      (speed (coords position)) (timestamp position) in
  match window_api_saveLocation (api w) with
  | Normal f => (Pending, set_requests (requests w ++ [(f, locationData)]) w)
  | Throw e => (Resolved false, console_print Error "Error saving location:" e w)
  end.

(** The part after the [await], once the backend call has settled. *)
Definition savePositionToBackend_resume (r : Completion Response) (w : World)
  : bool * World :=
  match r with
  | Normal (response_object error) =>
      if truthy error
      then (false, console_print Warn "Failed to save location:" (or_default error "") w)
      else (true, console_print Log "Location saved successfully:" "" w)
  | Normal response_undefined =>
      (false, console_print Error "Error saving location:"
                "TypeError: response is undefined" w)
  | Throw e => (false, console_print Error "Error saving location:" e w)
  end.

(** *** [emitPositionUpdate(position)], lines 243-252 *)
Definition emitPositionUpdate (position : Position) (w : World) : World :=
  let event := mkPositionUpdate position (coords position) (clock w) in
  set_events (events w ++ [event]) w.

(** *** [handlePosition(position)], lines 134-141 *)
Definition handlePosition (position : Position) (w : World) : World :=
  if shouldSavePosition (gpsTracker w) position then
    let w := this (set_lastPosition (Some position)) w in
    let w := snd (savePositionToBackend position w) in
    emitPositionUpdate position w
  else w.

(** *** [stopTracking()], lines 118-131

    [navigator.geolocation.clearWatch] throws when there is a handle but no
    [navigator.geolocation]; the method is then abandoned at that line. *)
Definition stopTracking (w : World) : Completion unit * World :=
  let cleared :=
    match watchId (gpsTracker w) with
    | Some id =>
        if geolocation w
        then Normal (this (set_watchId None) (clearWatch id w))
        else Throw "TypeError: navigator.geolocation is undefined"
    | None => Normal w
    end in
  match cleared with
  | Throw e => (Throw e, w)
  | Normal w =>
      let w :=
        match intervalId (gpsTracker w) with
        | timer_id id => this (set_intervalId timer_null) (clearInterval id w)
        | _ => w
        end in
      let w := this (set_isTracking false) w in
      (Normal tt, console_print Log "GPS tracking stopped" "" w)
  end.

(** *** [initialize()], lines 31-62

    Up to the [await]: without [navigator.geolocation] the method is done;
    otherwise it waits for the permission query. *)
Definition initialize_begin (w : World) : Promise bool * World :=
  if negb (geolocation w) then
    let w := console_print Warn "Geolocation is not supported by this browser" "" w in
    (Resolved false, showWarning "GPS is not supported by your device/browser" w)
  else (Pending, w).

(** After the [await]: the [try] block, or its [catch]. *)
Definition initialize_resume (q : PermissionQuery) (w : World) : bool * World :=
  match q with
  | query_resolves s =>
      let w := this (set_permissionState (Some s)) w in
      let w := set_onchange true w in
      (true, this (set_initialized true) w)
  | query_fails e =>
      let w := console_print Warn "Could not check geolocation permission:" e w in
      (true, this (set_initialized true) w)
  end.

(** The whole call, awaited. *)
Definition initialize (q : PermissionQuery) (w : World) : bool * World :=
  match initialize_begin w with
  | (Resolved b, w) => (b, w)
  | (_, w) => initialize_resume q w
  end.

(** *** [startTracking()], lines 65-115

    From line 70 on: the check of [isTracking] and the one-shot request.
    Without [navigator.geolocation] the request throws inside the promise,
    which is rejected. *)
Definition startTracking_request (w : World) : Promise bool * World :=
  if isTracking (gpsTracker w) then
    (Resolved true, console_print Log "Already tracking GPS" "" w)
  else if geolocation w then (Pending, getCurrentPosition w)
  else (Rejected "TypeError: navigator.geolocation is undefined", w).

(** The success callback of the one-shot request, lines 78-107. *)
Definition startTracking_success (position : Position) (w : World)
  : Promise bool * World :=
  let w := this (set_userConsent true) w in
  let w := this (set_lastPosition (Some position)) w in
  let w := snd (savePositionToBackend position w) in
  if geolocation w then
    let '(id, w) := watchPosition w in
    let w := this (set_watchId (Some id)) w in
    let w := this (set_isTracking true) w in
    let w := console_print Log "GPS tracking started" "" w in
    let '(tid, w) := setInterval w in
    let w := this (set_intervalId (timer_id tid)) w in
    (Resolved true, w)
  else (Pending, w).

(** The error callback of the one-shot request, lines 108-111. *)
Definition startTracking_error (error : PositionError) (w : World)
  : Promise bool * World :=
  (Resolved false, handleError error w).

(** The callback given to [setInterval], lines 96-104. *)
Definition interval_callback (w : World) : World :=
  match lastPosition (gpsTracker w) with
  | Some _ => if geolocation w then getCurrentPosition w else w
  | None => w
  end.

(** A call of [startTracking()] up to its first suspension. *)
Definition startTracking_begin (w : World) : Promise bool * World :=
  if initialized (gpsTracker w) then startTracking_request w
  else (Pending, snd (initialize_begin w)).

(** What the platform answers to a one-shot request. *)
Inductive GeoResult : Type :=
  | geo_position (p : Position)
  | geo_error (e : PositionError).

(** The whole call, awaited: [q] is the answer of the permission query,
    should [initialize] run, and [g] the answer to the one-shot request,
    should it be made. *)
Definition startTracking (q : PermissionQuery) (g : GeoResult) (w : World)
  : Promise bool * World :=
  let w := if initialized (gpsTracker w) then w else snd (initialize q w) in
  match startTracking_request w with
  | (Pending, w) =>
      match g with
      | geo_position p => startTracking_success p w
      | geo_error e => startTracking_error e w
      end
  | settled => settled
  end.

(** *** [permission.onchange], lines 43-53; [s] is the new [permission.state]. *)
Definition permission_onchange (s : PermissionState) (w : World) : World :=
  let w := this (set_permissionState (Some s)) w in
  let w := console_print Log "GPS permission changed to:" (state_name s) w in
  match s with
  | granted =>
      if autoStart (options (gpsTracker w)) then snd (startTracking_begin w) else w
  | denied =>
      match stopTracking w with
      | (Normal _, w) =>
          showWarning
            "GPS permission denied. Please enable location services in your browser settings."
            w
      | (Throw _, w) => w
      end
  | prompt => w
  end.

(** *** [isAvailable()] and [hasPermission()], lines 266-273 *)
Definition isAvailable (w : World) : bool := geolocation w.
Definition hasPermission (w : World) : bool := userConsent (gpsTracker w).

End Methods.

Arguments GeoResult : clear implicits.

(** ** The [api] object of [api.js], lines 74-106

    Five request helpers and three token helpers, all functions; line 110
    stores the object in [window.api]. *)
Module ApiJs.

Definition api : JSObject :=
  [ ("get", JSFunction "get");
    ("post", JSFunction "post");
    ("patch", JSFunction "patch");
    ("put", JSFunction "put");
    ("delete", JSFunction "delete");
    ("setToken", JSFunction "setToken");
    ("clearToken", JSFunction "clearToken");
    ("getToken", JSFunction "getToken") ].

End ApiJs.

(** ** Runs

    JavaScript runs one callback to its end before the next one starts.
    An [Action] is one such uninterrupted piece of the tracker: a method
    called from outside, a callback invoked by the platform, or the part of
    an [async] method between two suspensions.  The awaited calls
    [call_initialize] and [call_startTracking] are there as well. *)

Section Runs.
Context {num : Type} `{JSNumber num}.

Abbreviation World := (World num).

Inductive Action : Type :=
  | call_initialize (q : PermissionQuery)
  | call_startTracking (q : PermissionQuery) (g : GeoResult num)
  | call_stopTracking
  | do_initialize_begin
  | do_initialize_resume (q : PermissionQuery)
  | do_startTracking_begin
  | do_startTracking_request
  | do_startTracking_success (p : Position num)
  | do_startTracking_error (e : PositionError)
  | do_handlePosition (p : Position num)
  | do_handleError (e : PositionError)
  | do_permission_onchange (s : PermissionState)
  | do_interval_callback
  | do_savePositionToBackend_resume (r : Completion Response)
  | do_clock (now : string).

Definition exec (a : Action) (w : World) : World :=
  match a with
  | call_initialize q => snd (initialize q w)
  | call_startTracking q g => snd (startTracking q g w)
  | call_stopTracking => snd (stopTracking w)
  | do_initialize_begin => snd (initialize_begin w)
  | do_initialize_resume q => snd (initialize_resume q w)
  | do_startTracking_begin => snd (startTracking_begin w)
  | do_startTracking_request => snd (startTracking_request w)
  | do_startTracking_success p => snd (startTracking_success p w)
  | do_startTracking_error e => snd (startTracking_error e w)
  | do_handlePosition p => handlePosition p w
  | do_handleError e => handleError e w
  | do_permission_onchange s => permission_onchange s w
  | do_interval_callback => interval_callback w
  | do_savePositionToBackend_resume r => snd (savePositionToBackend_resume r w)
  | do_clock now => set_clock now w
  end.

Definition run (acts : list Action) (w : World) : World :=
  fold_left (fun w a => exec a w) acts w.

(** The pieces an awaited call of [startTracking()] runs, one after the
    other, when nothing else runs in between. *)
Definition startTracking_pieces (q : PermissionQuery) (g : GeoResult num) (w : World)
  : list Action :=
  (if initialized (gpsTracker w) then []
   else if geolocation w then [do_initialize_begin; do_initialize_resume q]
   else [do_initialize_begin])
  ++ [do_startTracking_request]
  ++ (if isTracking (gpsTracker w) then []
      else if geolocation w then
        [match g with
         | geo_position p => do_startTracking_success p
         | geo_error e => do_startTracking_error e
         end]
      else []).

(** The browser a page is loaded in. *)
Record Browser : Type := mkBrowser {
  browser_geolocation : bool;
  browser_first_watch : Z;
  browser_first_timer : positive;
  browser_api : option JSObject;
  browser_showMessage : bool;
  browser_clock : string
}.

(** [window.gpsTracker = new GPSTracker(o)] in a freshly loaded page. *)
Definition load (b : Browser) (o : OptionsArg num) : World :=
  mkWorld (constructor o)
    (browser_geolocation b) [] (browser_first_watch b) [] (browser_first_timer b)
    0 false (browser_api b) (browser_showMessage b) [] [] [] [] (browser_clock b).

(** The options of the global instance, lines 277-284. *)
Definition global_options : OptionsArg num :=
  mkOptionsArg (Some true) (Some 10000%Z) (Some 0%Z) (Some 60000%Z)
    (Some (num_lit 10)) (Some false).

(** ** Predicates of the statements *)

(** [if (this.intervalId)] *)
Definition has_timer (t : GPSTracker num) : bool :=
  match intervalId t with
  | timer_id _ => true
  | _ => false
  end.

(** Idle: not tracking, no subscription handle, no poll handle. *)
Definition idle (t : GPSTracker num) : Prop :=
  isTracking t = false /\ watchId t = None /\ has_timer t = false.

(** The subscription handle is set exactly when the tracker is tracking. *)
Definition handle_invariant (t : GPSTracker num) : Prop :=
  watchId t <> None <-> isTracking t = true.

(** The two fields the invariant is about. *)
Definition handles (w : World) : option Z * bool :=
  (watchId (gpsTracker w), isTracking (gpsTracker w)).

(** The warnings shown so far: the console lines of [showWarning]. *)
Definition is_warning (e : ConsoleEntry) : bool :=
  match e with
  | (Warn, text, _) => String.eqb text "GPS Warning:"
  | _ => false
  end.

Definition warnings (w : World) : list ConsoleEntry :=
  filter is_warning (console w).

End Runs.

(** ** Worlds and samples used as instances *)

Module Fixture.
Local Open Scope R_scope.

Definition coordinates_at (lat lon : R) : Coordinates R :=
  mkCoordinates lat lon 5 None None None None.

(** A fix at latitude 0, longitude 0, and one a degree further east. *)
Definition origin : Position R := mkPosition (coordinates_at 0 0) 1000.
Definition one_degree_east : Position R := mkPosition (coordinates_at 0 1) 2000.

Definition permission_denied : PositionError :=
  mkPositionError 1 "User denied Geolocation".


(** A browser with geolocation, with [api.js] loaded and a message area. *)
Definition browser : Browser :=
  mkBrowser true 1 1 (Some ApiJs.api) true "2024-01-01T00:00:00.000Z".

(** The page just loaded, lines 277-284. *)
Definition fresh : World R := load browser global_options.

(** After [await startTracking()] answered by a fix at the origin. *)
Definition tracking : World R :=
  snd (startTracking (query_resolves granted) (geo_position origin) fresh).

(** The timer asks for a position, then [stopTracking()] is called before
    the answer arrives. *)
Definition stopped : World R :=
  snd (stopTracking (interval_callback tracking)).

End Fixture.

(** ** [localStorage]

    Keys and values are strings.  Reading, writing and removing throw a
    [SecurityError] when the page may not use the storage at all, and
    writing throws a [QuotaExceededError] when the storage is full. *)

Inductive StorageMode : Type :=
  | storage_working
  | storage_full
  | storage_blocked.

Record Storage : Type := mkStorage {
  storage_mode : StorageMode;
  storage_items : list (string * string)
}.

Section Assoc.
Context {V : Type}.

(** [o[key]], [o[key] = v] and [delete o[key]] on the keys of an object, in
    the order they were first written. *)
Fixpoint assoc_get (key : string) (l : list (string * V)) : option V :=
  match l with
  | [] => None
  | (k, v) :: rest => if String.eqb k key then Some v else assoc_get key rest
  end.

Fixpoint assoc_set (key : string) (v : V) (l : list (string * V)) : list (string * V) :=
  match l with
  | [] => [(key, v)]
  | (k, v') :: rest =>
      if String.eqb k key then (k, v) :: rest else (k, v') :: assoc_set key v rest
  end.

Fixpoint assoc_remove (key : string) (l : list (string * V)) : list (string * V) :=
  match l with
  | [] => []
  | (k, v') :: rest =>
      if String.eqb k key then assoc_remove key rest else (k, v') :: assoc_remove key rest
  end.

End Assoc.

(** [localStorage.getItem(key)]: [null] for a key that is not there. *)
Definition getItem (key : string) (st : Storage) : Completion (option string) :=
  match storage_mode st with
  | storage_blocked => Throw "SecurityError"
  | _ => Normal (assoc_get key (storage_items st))
  end.

(** [localStorage.setItem(key, value)] *)
Definition setItem (key value : string) (st : Storage) : Completion unit * Storage :=
  match storage_mode st with
  | storage_working =>
      (Normal tt, mkStorage storage_working (assoc_set key value (storage_items st)))
  | storage_full => (Throw "QuotaExceededError", st)
  | storage_blocked => (Throw "SecurityError", st)
  end.

(** [localStorage.removeItem(key)] *)
Definition removeItem (key : string) (st : Storage) : Completion unit * Storage :=
  match storage_mode st with
  | storage_blocked => (Throw "SecurityError", st)
  | m => (Normal tt, mkStorage m (assoc_remove key (storage_items st)))
  end.

(** ** The page-load handler of [gps-tracker.js], lines 287-301 *)

Section PageLoad.
Context {num : Type} `{JSNumber num}.

Definition bool_name (b : bool) : string := if b then "true" else "false".

(** The handler with its promise chain run to the end: [q] and [g] are the
    answers of the platform to the permission query and to the first
    position request.  A callback that throws, or a rejected
    [startTracking()], ends the chain there. *)
Definition on_DOMContentLoaded (q : PermissionQuery) (g : GeoResult num)
    (st : Storage) (w : World num) : World num :=
  let '(initialized, w) := initialize q w in
  let w := console_print Log "GPS Tracker initialized:" (bool_name initialized) w in
  match getItem "st_token" st with
  | Throw _ => w
  | Normal token =>
      if truthy token && initialized then
        match startTracking q g w with
        | (Resolved success, w) =>
            console_print Log "Auto-started GPS tracking:" (bool_name success) w
        | (_, w) => w
        end
      else w
  end.

(** A token is stored and can be read: [token] is truthy in line 294. *)
Definition has_token (st : Storage) : bool :=
  match getItem "st_token" st with
  | Normal token => truthy token
  | Throw _ => false
  end.

Definition is_position (g : GeoResult num) : bool :=
  match g with
  | geo_position _ => true
  | geo_error _ => false
  end.

(** ** More predicates of the statements *)




(** The part of the page the life cycle turns on: the two handles and the
    tracking flag, the active subscriptions and timers, and with them the
    last position and the consent flag. *)
Definition View : Type := (option Z * bool * TimerRef * list Z * list positive)%type.
Definition Core : Type := (View * option (Position num) * bool)%type.

Definition view (w : World num) : View :=
  (watchId (gpsTracker w), isTracking (gpsTracker w), intervalId (gpsTracker w),
   watches w, timers w).

Definition core (w : World num) : Core :=
  (view w, lastPosition (gpsTracker w), userConsent (gpsTracker w)).

(** What [stopTracking()] makes of it when it completes. *)
Definition stopped_view (v : View) : View :=
  let '(wid, _, iid, ws, ts) := v in
  (None, false,
   match iid with
   | timer_id _ => timer_null
   | other => other
   end,
   match wid with
   | Some id => filter (fun i => negb (Z.eqb i id)) ws
   | None => ws
   end,
   match iid with
   | timer_id id => filter (fun i => negb (Pos.eqb i id)) ts
   | _ => ts
   end).

(** All that one piece of the tracker can do to it.  With [guarded] the
    success callback of [startTracking] only runs on a tracker that is not
    tracking, as it does inside an awaited call. *)
Inductive core_step (guarded : bool) : Core -> Core -> Prop :=
  | step_same c :
      core_step guarded c c
  | step_consent_cleared v lp uc :
      core_step guarded (v, lp, uc) (v, lp, false)
  | step_accepted v lp uc p :
      core_step guarded (v, lp, uc) (v, Some p, uc)
  | step_stopped v lp uc :
      core_step guarded (v, lp, uc) (stopped_view v, lp, uc)
  | step_first_fix wid tr iid ws ts lp uc p id tid :
      (guarded = true -> tr = false) ->
      core_step guarded (wid, tr, iid, ws, ts, lp, uc)
        (Some id, true, timer_id tid, (ws ++ [id])%list, (ts ++ [tid])%list, Some p, true)
  | step_first_fix_abandoned v lp uc p :
      core_step guarded (v, lp, uc) (v, Some p, true).


Definition quiet (c : Core) : Prop :=
  let '(wid, tr, iid, ws, ts, lp, uc) := c in
  lp = None ->
  tr = false /\ uc = false /\ wid = None /\
  match iid with timer_id _ => true | _ => false end = false /\
  ws = [] /\ ts = [].

(** The pieces other than the success callback of [startTracking] on its
    own: in a run of such pieces every [startTracking()] is awaited. *)
Definition awaited (a : @Action num) : bool :=
  match a with
  | do_startTracking_success _ => false
  | _ => true
  end.

(** The one piece that dispatches position-update events. *)
Definition emits (a : @Action num) : bool :=
  match a with
  | do_handlePosition _ => true
  | _ => false
  end.

(** The tracker holds something of a started tracking: a subscription, a
    timer, the consent or the tracking flag. *)
Definition holds_tracking (w : World num) : Prop :=
  isTracking (gpsTracker w) = true \/ userConsent (gpsTracker w) = true \/
  watchId (gpsTracker w) <> None \/ has_timer (gpsTracker w) = true \/
  watches w <> [] \/ timers w <> [].

(** The callbacks [handlePosition p1], ..., [handlePosition pn] in a row. *)
Definition handlePositions (ps : list (Position num)) (w : World num) : World num :=
  fold_left (fun w p => handlePosition p w) ps w.

End PageLoad.

(** A tracker that reports every sample: [minDistance: 0]. *)
Module Eager.
Local Open Scope R_scope.



End Eager.

(** ** [api.js]: the request function and the token helpers, lines 8-106 *)

(** A JavaScript value as [JSON.parse] returns it. *)
#[local] Unset Elimination Schemes.
Inductive JSVal (num : Type) : Type :=
  | js_null
  | js_bool (b : bool)
  | js_number (n : num)
  | js_string (s : string)
  | js_array (items : list (JSVal num))
  | js_object (fields : list (string * JSVal num)).
#[local] Set Elimination Schemes.
Arguments js_null {num}.
Arguments js_bool {num} b.
Arguments js_number {num} n.
Arguments js_string {num} s.
Arguments js_array {num} items.
Arguments js_object {num} fields.

(** Anything thrown: its [name], its [message] and what [String(err)]
    gives. *)
Record JSError : Type := mkJSError {
  err_name : string;
  err_message : string;
  err_text : string
}.

(** The third argument of [request]: [null], a [FormData], or a value to
    be sent as JSON. *)
Inductive Body (num : Type) : Type :=
  | body_null
  | body_FormData (form : string)
  | body_value (v : JSVal num).
Arguments body_null {num}.
Arguments body_FormData {num} form.
Arguments body_value {num} v.

(** The fourth argument of [request]: each key may be missing. *)
Record RequestOpts : Type := mkRequestOpts {
  opts_timeout : option Z;
  opts_token : option string;
  opts_headers : option (list (string * string))
}.

(** What is handed to [fetch], and the delay of the abort timer. *)
Record FetchCall (num : Type) : Type := mkFetchCall {
  fetch_url : string;
  fetch_method : string;
  fetch_headers : list (string * string);
  fetch_credentials : string;
  fetch_body : option (Body num);     (* the [body] key is set only for a body *)
  abort_after : Z
}.

(** How [fetch] and the reading of the answer end: an answer with its
    [ok] flag, its status and its text, or a failure of either. *)
Inductive FetchOutcome : Type :=
  | fetch_response (ok : bool) (status : Z) (text : string)
  | fetch_failure (err : JSError).

Module Api.

Definition TOKEN_KEY : string := "st_token".

(** Line 8: [window.BASE_URL || 'https://...']. *)
Definition BASE_URL (configured : option string) : string :=
  if truthy configured then or_default configured ""
  else "https://tritech-backend-1w10.onrender.com".

Section Request.
Context {num : Type}.

(** The platform: whether a number is falsy (0 or NaN), and [JSON.parse],
    which throws on a text that is not JSON. *)
Variable falsy_number : num -> bool.
Variable JSON_parse : string -> Completion (JSVal num).

Definition js_truthy (v : JSVal num) : bool :=
  match v with
  | js_null => false
  | js_bool b => b
  | js_number n => negb (falsy_number n)
  | js_string s => negb (String.eqb s "")
  | js_array _ => true
  | js_object _ => true
  end.

(** [safeParse(text)], lines 14-20 *)
Definition safeParse (text : string) : JSVal num :=
  match JSON_parse text with
  | Normal v => v
  | Throw _ => js_null
  end.

(** [request], lines 23-50: up to the call of [fetch].  Reading the token
    from [localStorage] is outside the [try]: if it throws, so does
    [request]. *)
Definition request_prepare (base method path : string) (body : Body num)
    (opts : RequestOpts) (st : Storage) : Completion (FetchCall num) :=
  let url := (base ++ path)%string in
  let timeout :=
    match opts_timeout opts with
    | Some t => if (t =? 0)%Z then 15000%Z else t
    | None => 15000%Z
    end in
  let token :=
    if truthy (opts_token opts) then Normal (opts_token opts)
    else
      match getItem TOKEN_KEY st with
      | Normal stored => Normal (if truthy stored then stored else None)
      | Throw e => Throw e
      end in
  match token with
  | Throw e => Throw e
  | Normal token =>
      let headers := or_default (opts_headers opts) [] in
      let headers :=
        match body with
        | body_value _ => assoc_set "Content-Type" "application/json" headers
        | _ => headers
        end in
      let headers :=
        match token with
        | Some t => assoc_set "Authorization" ("Bearer " ++ t)%string headers
        | None => headers
        end in
      Normal
        (mkFetchCall url method headers "include"
           (match body with
            | body_null => None
            | b => Some b
            end)
           timeout)
  end.

(** [request], lines 52-70: what the call returns for each outcome. *)
Definition request_complete (o : FetchOutcome) : JSVal num :=
  match o with
  | fetch_response ok status text =>
      let json := safeParse text in
      if ok then
        match json with
        | js_null => js_object [("ok", js_bool true)]
        | _ => json
        end
      else if js_truthy json then json
      else
        js_object
          [("error",
            js_string
              (if String.eqb text ""
               then ("Request failed with status "
                       ++ NilZero.string_of_int (Z.to_int status))%string
               else text))]
  | fetch_failure err =>
      if String.eqb (err_name err) "AbortError" then
        js_object [("error", js_string "Request timed out")]
      else
        js_object
          [("error",
            js_string
              ("Network error: "
                 ++ (if String.eqb (err_message err) "" then err_text err
                     else err_message err))%string)]
  end.

(** The whole call: the call of [fetch] it makes and the value it resolves
    to, or the exception it is rejected with. *)
Definition request (base method path : string) (body : Body num)
    (opts : RequestOpts) (st : Storage) (o : FetchOutcome)
  : Completion (FetchCall num * JSVal num) :=
  match request_prepare base method path body opts st with
  | Normal call => Normal (call, request_complete o)
  | Throw e => Throw e
  end.

(** [api.get], [api.post], [api.patch], [api.put], [api.delete], lines
    75-79; a body that is not passed is [{}]. *)
Definition no_opts : RequestOpts := mkRequestOpts None None None.
Definition empty_object : Body num := body_value (js_object []).

Definition get (base path : string) (opts : RequestOpts) :=
  request base "GET" path body_null opts.
Definition post (base path : string) (body : option (Body num)) (opts : RequestOpts) :=
  request base "POST" path (or_default body empty_object) opts.
Definition patch (base path : string) (body : option (Body num)) (opts : RequestOpts) :=
  request base "PATCH" path (or_default body empty_object) opts.
Definition put (base path : string) (body : option (Body num)) (opts : RequestOpts) :=
  request base "PUT" path (or_default body empty_object) opts.
Definition delete (base path : string) (opts : RequestOpts) :=
  request base "DELETE" path body_null opts.

End Request.

(** The token helpers, lines 82-105: the storage afterwards, or the value
    read, and the lines written to the console. *)
Definition setToken (token : string) (st : Storage) : Storage * list ConsoleEntry :=
  match setItem TOKEN_KEY token st with
  | (Normal _, st') => (st', [])
  | (Throw e, st') => (st', [(Warn, "Cannot save token:", e)])
  end.

Definition clearToken (st : Storage) : Storage * list ConsoleEntry :=
  match removeItem TOKEN_KEY st with
  | (Normal _, st') => (st', [])
  | (Throw e, st') => (st', [(Warn, "Cannot clear token:", e)])
  end.

Definition getToken (st : Storage) : option string * list ConsoleEntry :=
  match getItem TOKEN_KEY st with
  | Normal token => (token, [])
  | Throw e => (None, [(Warn, "Cannot get token:", e)])
  end.

End Api.

(** A storage and a platform used as instances. *)
Module ApiFixture.

Definition storage : Storage :=
  mkStorage storage_working [("st_user", "{}"); ("st_token", "old")].

Definition blocked : Storage := mkStorage storage_blocked [].

Definition falsy_number (n : Z) : bool := Z.eqb n 0.

(** A parser that knows two texts. *)
Definition JSON_parse (text : string) : Completion (JSVal Z) :=
  if String.eqb text "null" then Normal js_null
  else if String.eqb text "0" then Normal (js_number 0%Z)
  else Throw "SyntaxError".

Definition json_opts : RequestOpts :=
  mkRequestOpts None None (Some [("Content-Type", "text/plain")]).

End ApiFixture.

(** ** [app.js]: the page of the forms

    The parts of the page the functions below read and write.  An element
    that [document.getElementById] does not find is [null]. *)
Module App.

(** A JavaScript [Set] of strings, in insertion order. *)
Definition set_has (x : string) (s : list string) : bool :=
  existsb (String.eqb x) s.

Definition set_add (x : string) (s : list string) : list string :=
  if set_has x s then s else (s ++ [x])%list.

Definition set_delete (x : string) (s : list string) : list string :=
  filter (fun y => negb (String.eqb y x)) s.

(** An element: its [classList] and its [style.display]. *)
Record Element : Type := mkElement {
  classList : list string;
  display : string
}.

Definition classList_add (c : string) (e : Element) : Element :=
  mkElement (set_add c (classList e)) (display e).

Definition classList_remove (c : string) (e : Element) : Element :=
  mkElement (set_delete c (classList e)) (display e).

Definition style_display (d : string) (e : Element) : Element :=
  mkElement (classList e) d.

(** A message in the message area; [message_id] tells the elements created
    by [showMessage] apart. *)
Record MessageEl : Type := mkMessageEl {
  message_id : nat;
  message_class : string;
  message_text : string
}.

(** A preference button: its preference, and whether its [classList] has
    ['selected']. *)
Record PrefButton : Type := mkPrefButton {
  button_pref : string;
  button_selected : bool
}.

Record Page : Type := mkPage {
  tabSignup : option Element;
  tabLogin : option Element;
  signupForm : option Element;
  loginForm : option Element;
  profileView : option Element;
  statusIndicator : option string;              (* its textContent *)
  messageArea : option (list MessageEl);        (* its children *)
  created : nat;                                (* messages created so far *)
  suCountry : option (list string);             (* the values of its options *)
  prefsContainer : option (list PrefButton);    (* its children *)
  selectedPrefs : list string;
  log : list ConsoleEntry;
  storage : Storage                             (* localStorage *)
}.

Definition MAX_PREFS : nat := 5.
Definition TOKEN_KEY : string := "st_token".

(** *** Field updates *)

Definition with_tabs (ts tl sf lf pv : option Element) (p : Page) : Page :=
  mkPage ts tl sf lf pv (statusIndicator p) (messageArea p) (created p)
    (suCountry p) (prefsContainer p) (selectedPrefs p) (log p) (storage p).

Definition with_status (s : option string) (p : Page) : Page :=
  mkPage (tabSignup p) (tabLogin p) (signupForm p) (loginForm p) (profileView p)
    s (messageArea p) (created p) (suCountry p) (prefsContainer p)
    (selectedPrefs p) (log p) (storage p).

Definition with_messages (m : option (list MessageEl)) (n : nat) (p : Page) : Page :=
  mkPage (tabSignup p) (tabLogin p) (signupForm p) (loginForm p) (profileView p)
    (statusIndicator p) m n (suCountry p) (prefsContainer p)
    (selectedPrefs p) (log p) (storage p).

Definition with_countries (c : option (list string)) (p : Page) : Page :=
  mkPage (tabSignup p) (tabLogin p) (signupForm p) (loginForm p) (profileView p)
    (statusIndicator p) (messageArea p) (created p) c (prefsContainer p)
    (selectedPrefs p) (log p) (storage p).

Definition with_prefs (b : option (list PrefButton)) (s : list string) (p : Page) : Page :=
  mkPage (tabSignup p) (tabLogin p) (signupForm p) (loginForm p) (profileView p)
    (statusIndicator p) (messageArea p) (created p) (suCountry p) b s
    (log p) (storage p).

Definition with_log (l : list ConsoleEntry) (p : Page) : Page :=
  mkPage (tabSignup p) (tabLogin p) (signupForm p) (loginForm p) (profileView p)
    (statusIndicator p) (messageArea p) (created p) (suCountry p)
    (prefsContainer p) (selectedPrefs p) l (storage p).

Definition with_storage (st : Storage) (p : Page) : Page :=
  mkPage (tabSignup p) (tabLogin p) (signupForm p) (loginForm p) (profileView p)
    (statusIndicator p) (messageArea p) (created p) (suCountry p)
    (prefsContainer p) (selectedPrefs p) (log p) st.

Definition console_log (text arg : string) (p : Page) : Page :=
  with_log (log p ++ [(Log, text, arg)]) p.

Definition console_error (text arg : string) (p : Page) : Page :=
  with_log (log p ++ [(Error, text, arg)]) p.

(** [if (elements.statusIndicator) elements.statusIndicator.textContent = s] *)
Definition set_status (s : string) (p : Page) : Page :=
  match statusIndicator p with
  | Some _ => with_status (Some s) p
  | None => p
  end.

(** *** [showMessage(text, type = 'error', timeout = 5000)], lines 41-59

    The new element replaces whatever the message area holds.  When
    [timeout] is not 0 a timer is set; [message_timeout] is its callback
    for the element with the given identity. *)
Definition showMessage (text type : string) (timeout : Z) (p : Page) : Page :=
  match messageArea p with
  | None => p
  | Some _ =>
      let messageEl := mkMessageEl (created p) ("message " ++ type)%string text in
      with_messages (Some [messageEl]) (S (created p)) p
  end.

Definition message_timeout (id : nat) (p : Page) : Page :=
  match messageArea p with
  | None => p
  | Some children =>
      if existsb (fun m => Nat.eqb (message_id m) id) children
      then with_messages
             (Some (filter (fun m => negb (Nat.eqb (message_id m) id)) children))
             (created p) p
      else p
  end.

(** *** [setActiveTab(tab)], lines 62-82 *)
Definition setActiveTab (tab : string) (p : Page) : Page :=
  let p := console_log "Switching to tab:" tab p in
  let ts := option_map (classList_remove "active") (tabSignup p) in
  let tl := option_map (classList_remove "active") (tabLogin p) in
  let sf := option_map (style_display "none") (signupForm p) in
  let lf := option_map (style_display "none") (loginForm p) in
  let pv := option_map (style_display "none") (profileView p) in
  if String.eqb tab "signup" then
    with_tabs (option_map (classList_add "active") ts) tl
      (option_map (style_display "flex") sf) lf pv p
  else if String.eqb tab "login" then
    with_tabs ts (option_map (classList_add "active") tl)
      sf (option_map (style_display "flex") lf) pv p
  else with_tabs ts tl sf lf pv p.

(** *** The click handler of a preference button, lines 114-126 and 164-176;
    [i] is the position of the button in the container. *)
Fixpoint set_nth_selected (i : nat) (v : bool) (bs : list PrefButton) : list PrefButton :=
  match bs, i with
  | [], _ => []
  | b :: rest, O => mkPrefButton (button_pref b) v :: rest
  | b :: rest, S j => b :: set_nth_selected j v rest
  end.

Definition pref_click (i : nat) (p : Page) : Page :=
  match prefsContainer p with
  | None => p
  | Some buttons =>
      match nth_error buttons i with
      | None => p
      | Some button =>
          let pref := button_pref button in
          if set_has pref (selectedPrefs p) then
            with_prefs (Some (set_nth_selected i false buttons))
              (set_delete pref (selectedPrefs p)) p
          else if Nat.leb MAX_PREFS (List.length (selectedPrefs p)) then
            showMessage "Maximum 5 preferences allowed" "error" 2000 p
          else
            with_prefs (Some (set_nth_selected i true buttons))
              (set_add pref (selectedPrefs p)) p
      end
  end.

(** *** [loadMeta()], lines 85-186, after the answer of the backend

    The answer is ok with its data, whose two lists may be missing, or the
    call failed in some way. *)
Inductive MetaAnswer : Type :=
  | meta_ok (countries preferences : option (list string))
  | meta_failed (error : string).

Definition fallbackCountries : list string :=
  ["Syria"; "Lebanon"; "Jordan"; "Iraq"; "Egypt"; "Turkey"; "Other"].

Definition fallbackPrefs : list string :=
  ["ancient/historical"; "meditation/nature"; "cultural food/restaurants";
   "cultural places"; "gaming/fun"].

(** The options of the country list: the placeholder, then the countries. *)
Definition country_options (countries : list string) : list string :=
  "" :: countries.

Definition pref_buttons (prefs : list string) : list PrefButton :=
  map (fun pref => mkPrefButton pref false) prefs.

(** The [catch] block, lines 138-185. *)
Definition loadMeta_fallback (error : string) (p : Page) : Page :=
  let p := console_error "Error loading meta:" error p in
  let p :=
    match suCountry p with
    | Some _ => with_countries (Some (country_options fallbackCountries)) p
    | None => p
    end in
  let p :=
    match prefsContainer p with
    | Some _ => with_prefs (Some (pref_buttons fallbackPrefs)) (selectedPrefs p) p
    | None => p
    end in
  set_status "Using fallback data" p.

(** The [try] block, lines 86-137: a list that is missing makes
    [forEach] throw after what precedes it has been done. *)
Definition loadMeta_resume (answer : MetaAnswer) (p : Page) : Page :=
  match answer with
  | meta_failed error => loadMeta_fallback error p
  | meta_ok countries preferences =>
      match suCountry p, countries with
      | Some _, None =>
          loadMeta_fallback "TypeError: data.countries is undefined"
            (with_countries (Some (country_options [])) p)
      | shown, _ =>
          let p :=
            match shown, countries with
            | Some _, Some cs => with_countries (Some (country_options cs)) p
            | _, _ => p
            end in
          match prefsContainer p, preferences with
          | None, _ => set_status "Connected" p
          | Some _, Some prefs =>
              set_status "Connected" (with_prefs (Some (pref_buttons prefs)) [] p)
          | Some _, None =>
              loadMeta_fallback "TypeError: data.preferences is undefined"
                (with_prefs (Some []) [] p)
          end
      end
  end.

(** *** [handleLogout()], lines 367-374 *)
Definition handleLogout (p : Page) : Completion unit * Page :=
  match removeItem TOKEN_KEY (storage p) with
  | (Throw e, _) => (Throw e, p)
  | (Normal _, st) =>
      let p := with_storage st p in
      let p := setActiveTab "login" p in
      let p := set_status "Offline" p in
      (Normal tt, showMessage "Logged out" "success" 1500 p)
  end.

(** *** [init()], lines 420-437, up to its end; the answer to [loadMeta()]
    comes later. *)
Definition init (p : Page) : Completion unit * Page :=
  let p := console_log "Initializing SmartTourist app" "" p in
  let p := console_log "Initializing event listeners" "" p in
  match getItem TOKEN_KEY (storage p) with
  | Throw e => (Throw e, p)
  | Normal token =>
      if truthy token then
        let p := console_log "User is already logged in" "" p in
        let p := setActiveTab "profile" p in
        (Normal tt, set_status "Authenticated" p)
      else (Normal tt, setActiveTab "signup" p)
  end.

(** *** What the user and the platform do to the page *)
Inductive Event : Type :=
  | click_pref (i : nat)
  | click_tab (tab : string)
  | click_logout
  | meta_answer (answer : MetaAnswer)
  | timeout_message (id : nat).

Definition handle (e : Event) (p : Page) : Page :=
  match e with
  | click_pref i => pref_click i p
  | click_tab tab => setActiveTab tab p
  | click_logout => snd (handleLogout p)
  | meta_answer answer => loadMeta_resume answer p
  | timeout_message id => message_timeout id p
  end.

Definition handle_all (es : list Event) (p : Page) : Page :=
  fold_left (fun p e => handle e p) es p.

(** The buttons show the selection: a button is marked exactly when its
    preference is in the set. *)
Definition buttons_show_selection (p : Page) : Prop :=
  forall buttons button,
    prefsContainer p = Some buttons -> In button buttons ->
    button_selected button = set_has (button_pref button) (selectedPrefs p).

Definition distinct_prefs (p : Page) : Prop :=
  forall buttons, prefsContainer p = Some buttons -> NoDup (map button_pref buttons).

(** A page with every element, before anything has run. *)
Definition blank (st : Storage) : Page :=
  let e := mkElement [] "" in
  mkPage (Some e) (Some e) (Some e) (Some e) (Some e) (Some "") (Some []) 0
    (Some []) (Some []) [] [] st.

End App.

(** More instances. *)
Module Fixture2.
Local Open Scope R_scope.

(** A browser without geolocation, and the page loaded in it. *)
Definition old_browser : Browser :=
  mkBrowser false 1 1 (Some ApiJs.api) true "2024-01-01T00:00:00.000Z".

Definition no_geolocation : World R := load old_browser global_options.

(** The fix one degree east again, from a coarser reading. *)
Definition east_coarse : Position R :=
  mkPosition (mkCoordinates 0 1 500 (Some 12) None (Some 90) None) 9999.

(** An error with a code the handler does not know. *)
Definition strange_error : PositionError := mkPositionError 7 "?".

(** A run in which every call is awaited. *)
Definition awaited_run : list (@Action R) :=
  [ call_initialize (query_fails "no permissions API");
    call_startTracking (query_resolves granted) (geo_position Fixture.origin);
    do_handleError Fixture.permission_denied;
    do_interval_callback;
    call_stopTracking;
    call_startTracking (query_resolves granted) (geo_position Fixture.origin) ].

(** The page of the forms with every element, and some clicks on it. *)
Definition forms : App.Page := App.blank ApiFixture.storage.

Definition clicks : list App.Event :=
  [ App.click_pref 0; App.click_pref 2; App.click_pref 0; App.click_tab "login";
    App.click_pref 4; App.timeout_message 0 ].

End Fixture2.

(** ** The distance over the real numbers *)

Section RealDistance.
Local Open Scope R_scope.

Lemma Rgeb_true (x y : R) : Rgeb x y = true <-> x >= y.
Proof.
  unfold Rgeb. destruct (Rge_dec x y) as [Hge | Hlt]; split; intro Hx.
  - exact Hge.
  - reflexivity.
  - discriminate Hx.
  - contradiction.
Qed.

Lemma Rgeb_false (x y : R) : Rgeb x y = false <-> x < y.
Proof.
  unfold Rgeb. destruct (Rge_dec x y) as [Hge | Hlt]; split; intro Hx.
  - discriminate Hx.
  - lra.
  - lra.
  - reflexivity.
Qed.


Lemma PI_bounds : 3.1402 < PI < 3.143.
Proof.
  generalize (PI_2_3_7_ineq 1).
  unfold PI_2_3_7_tg, tg_alt, Ratan_seq. simpl sum_f_R0. simpl.
  intros [Hlow Hup]. split; lra.
Qed.

(** [atan2] gives back the angle of a point of the right half of the unit
    circle. *)
Lemma Ratan2_sin_cos (h : R) :
  - (PI / 2) < h < PI / 2 -> Ratan2 (sin h) (cos h) = h.
Proof.
  intros [Hlow Hup]. unfold Ratan2.
  assert (Hcos : 0 < cos h) by (apply cos_gt_0; assumption).
  destruct (Rlt_dec 0 (cos h)) as [_ | Hn]; [| contradiction].
  change (sin h / cos h) with (tan h).
  apply atan_tan. split; assumption.
Qed.

Lemma Ratan2_0_1 : Ratan2 0 1 = 0.
Proof.
  unfold Ratan2. destruct (Rlt_dec 0 1) as [_ | Hn]; [| lra].
  replace (0 / 1) with 0 by field. exact atan_0.
Qed.

(** The central angle of two points of the equator one degree apart is one
    degree. *)
Lemma distance_equator_degree :
  calculateDistance 0 0 0 1 = 6371000 * (PI / 180).
Proof.
  unfold calculateDistance.
  cbn [num_lit num_add num_sub num_mul num_div Math_PI Math_sin Math_cos
       Math_sqrt Math_atan2 RNumber].
  pose proof PI_bounds as [Hlow Hup].
  set (h := PI / 360).
  replace ((0 - 0) * PI / 180 / 2) with 0 by field.
  replace ((1 - 0) * PI / 180 / 2) with h by (unfold h; field).
  replace (0 * PI / 180) with 0 by field.
  rewrite sin_0, cos_0.
  assert (Hh : - (PI / 2) < h < PI / 2) by (unfold h; split; lra).
  assert (Hsin : 0 <= sin h) by (apply sin_ge_0; unfold h; lra).
  assert (Hcos : 0 < cos h) by (apply cos_gt_0; tauto).
  replace (0 * 0 + 1 * 1 * sin h * sin h) with (sin h * sin h) by ring.
  replace (1 - sin h * sin h) with (cos h * cos h)
    by (pose proof (sin2_cos2 h) as Hsc; unfold Rsqr in Hsc; lra).
  rewrite (sqrt_square (sin h) Hsin).
  rewrite (sqrt_square (cos h)) by lra.
  rewrite (Ratan2_sin_cos Hh).
  unfold h. field.
Qed.

Lemma distance_equator_degree_bounds :
  111145 < calculateDistance 0 0 0 1 < 111245.
Proof.
  rewrite distance_equator_degree.
  pose proof PI_bounds as [Hlow Hup]. split; lra.
Qed.

Lemma calculateDistance_sym (lat1 lon1 lat2 lon2 : R) :
  calculateDistance lat1 lon1 lat2 lon2 = calculateDistance lat2 lon2 lat1 lon1.
Proof.
  unfold calculateDistance.
  cbn [num_lit num_add num_sub num_mul num_div Math_PI Math_sin Math_cos
       Math_sqrt Math_atan2 RNumber].
  replace ((lat1 - lat2) * PI / 180 / 2) with (- ((lat2 - lat1) * PI / 180 / 2))
    by field.
  replace ((lon1 - lon2) * PI / 180 / 2) with (- ((lon2 - lon1) * PI / 180 / 2))
    by field.
  rewrite !sin_neg.
  set (s1 := sin ((lat2 - lat1) * PI / 180 / 2)).
  set (s2 := sin ((lon2 - lon1) * PI / 180 / 2)).
  set (c1 := cos (lat1 * PI / 180)).
  set (c2 := cos (lat2 * PI / 180)).
  replace (- s1 * - s1 + c2 * c1 * - s2 * - s2) with (s1 * s1 + c1 * c2 * s2 * s2)
    by ring.
  reflexivity.
Qed.

Lemma calculateDistance_same (lat lon : R) :
  calculateDistance lat lon lat lon = 0.
Proof.
  unfold calculateDistance.
  cbn [num_lit num_add num_sub num_mul num_div Math_PI Math_sin Math_cos
       Math_sqrt Math_atan2 RNumber].
  replace ((lat - lat) * PI / 180 / 2) with 0 by field.
  replace ((lon - lon) * PI / 180 / 2) with 0 by field.
  rewrite sin_0.
  set (cc := cos (lat * PI / 180) * cos (lat * PI / 180)).
  replace (0 * 0 + cc * 0 * 0) with 0 by ring.
  replace (1 - 0) with 1 by ring.
  rewrite sqrt_0, sqrt_1, Ratan2_0_1. ring.
Qed.

End RealDistance.

(** ** The position filter *)

Section Filter.
Context {num : Type} `{JSNumber num}.

(** C2. With no last accepted position ([this.lastPosition] is [null]), the
    filter accepts every candidate, whatever the threshold in the options. *)
Theorem shouldSavePosition_without_last (t : GPSTracker num) (candidate : Position num) :
  lastPosition t = None -> shouldSavePosition t candidate = true.
Proof.
  intros Hlast. unfold shouldSavePosition. rewrite Hlast. reflexivity.
Qed.

End Filter.

Lemma shouldSavePosition_without_last_witness :
  shouldSavePosition (gpsTracker Fixture.fresh) Fixture.one_degree_east = true.
Proof.
  apply shouldSavePosition_without_last. reflexivity.
Defined.

Section RealFilter.
Local Open Scope R_scope.

(** With a last position, the filter compares the distance with the
    threshold. *)
Lemma shouldSavePosition_with_last (t : GPSTracker R) (last candidate : Position R) :
  lastPosition t = Some last ->
  shouldSavePosition t candidate =
  Rgeb (calculateDistance (latitude (coords last)) (longitude (coords last))
          (latitude (coords candidate)) (longitude (coords candidate)))
       (minDistance (options t)).
Proof.
  intros Hlast. unfold shouldSavePosition. rewrite Hlast. reflexivity.
Qed.


(** C3. Over the real numbers the distance is symmetric and the distance
    of a point to itself is 0, and so the filter rejects a candidate at the
    coordinates of the last position for every threshold above 0. *)
Theorem calculateDistance_symmetric_and_zero :
  (forall lat1 lon1 lat2 lon2 : R,
     calculateDistance lat1 lon1 lat2 lon2 = calculateDistance lat2 lon2 lat1 lon1) /\
  (forall lat lon : R, calculateDistance lat lon lat lon = 0) /\
  (forall (t : GPSTracker R) (last candidate : Position R),
     lastPosition t = Some last ->
     latitude (coords candidate) = latitude (coords last) ->
     longitude (coords candidate) = longitude (coords last) ->
     minDistance (options t) > 0 ->
     shouldSavePosition t candidate = false).
Proof.
  split; [exact calculateDistance_sym |].
  split; [exact calculateDistance_same |].
  intros t last candidate Hlast Hlat Hlon Hmin.
  rewrite (shouldSavePosition_with_last t candidate Hlast).
  rewrite Hlat, Hlon, calculateDistance_same.
  apply Rgeb_false. lra.
Qed.

(** C4. Over the real numbers the points (0, 0) and (0, 1) are 111,195 m
    apart, up to 50 m (the distance is 6,371,000 * PI / 180), and with a
    threshold of 10 m the filter accepts the one after the other. *)
Theorem equator_degree_fixture :
  Rabs (calculateDistance 0 0 0 1 - 111195) <= 50 /\
  (forall (t : GPSTracker R) (last candidate : Position R),
     lastPosition t = Some last ->
     latitude (coords last) = 0 -> longitude (coords last) = 0 ->
     latitude (coords candidate) = 0 -> longitude (coords candidate) = 1 ->
     minDistance (options t) = 10 ->
     shouldSavePosition t candidate = true).
Proof.
  pose proof distance_equator_degree_bounds as [Hlow Hup].
  split.
  - apply Rabs_le. split; lra.
  - intros t last candidate Hlast Hlat1 Hlon1 Hlat2 Hlon2 Hmin.
    rewrite (shouldSavePosition_with_last t candidate Hlast).
    rewrite Hlat1, Hlon1, Hlat2, Hlon2, Hmin.
    apply Rgeb_true. lra.
Qed.

End RealFilter.


Lemma calculateDistance_symmetric_and_zero_witness :
  shouldSavePosition (gpsTracker Fixture.tracking) Fixture.origin = false.
Proof.
  apply (proj2 (proj2 calculateDistance_symmetric_and_zero)
           (gpsTracker Fixture.tracking) Fixture.origin Fixture.origin).
  - reflexivity.
  - reflexivity.
  - reflexivity.
  - simpl. lra.
Defined.

Lemma equator_degree_fixture_witness :
  shouldSavePosition (gpsTracker Fixture.tracking) Fixture.one_degree_east = true.
Proof.
  apply (proj2 equator_degree_fixture
           (gpsTracker Fixture.tracking) Fixture.origin Fixture.one_degree_east);
    reflexivity.
Defined.

(** ** The tracking life cycle *)

Section Lifecycle.
Context {num : Type} `{JSNumber num}.

Abbreviation World := (World num).

Ltac reduce := lazy -[Z.add Pos.succ app String.eqb Z.eqb Pos.eqb filter savePositionToBackend].
Ltac reduce_in H := lazy -[Z.add Pos.succ app String.eqb Z.eqb Pos.eqb filter savePositionToBackend] in H.

(** [savePositionToBackend] only touches the console and the list of
    backend calls. *)
Lemma savePositionToBackend_shape (p : Position num) (w : World) :
  exists r rq c, savePositionToBackend p w = (r, set_requests rq (set_console c w)).
Proof.
  destruct w as [t geo ws nw ts nt os oc a sm ms es rs cs ck].
  unfold savePositionToBackend. cbn [api].
  destruct (window_api_saveLocation a) as [f | e];
    do 3 eexists; unfold console_print, set_requests, set_console; cbn;
    reflexivity.
Qed.

(** [startTracking()] on a tracker that is initialized and tracking only
    writes a line to the console. *)
Lemma startTracking_while_tracking (q : PermissionQuery) (g : GeoResult num) (w : World) :
  initialized (gpsTracker w) = true ->
  isTracking (gpsTracker w) = true ->
  startTracking q g w = (Resolved true, console_print Log "Already tracking GPS" "" w).
Proof.
  intros Hinit Htrack. unfold startTracking, startTracking_request.
  rewrite Hinit, Htrack. reflexivity.
Qed.

(** The awaited call is the run of its pieces. *)
Lemma startTracking_run (q : PermissionQuery) (g : GeoResult num) (w : World) :
  snd (startTracking q g w) = run (startTracking_pieces q g w) w.
Proof.
  destruct w as [t geo ws nw ts nt os oc a sm ms es rs cs ck].
  destruct t as [o wid lp tr uc ini ps iid].
  destruct ini, geo, tr, sm, q as [s | e], g as [p | e']; lazy; reflexivity.
Qed.

Lemma startTracking_first (q : PermissionQuery) (p : Position num) (w : World) :
  geolocation w = true ->
  isTracking (gpsTracker w) = false ->
  let first := startTracking q (geo_position p) w in
  fst first = Resolved true /\
  initialized (gpsTracker (snd first)) = true /\
  isTracking (gpsTracker (snd first)) = true /\
  watchId (gpsTracker (snd first)) = Some (next_watch w) /\
  watches (snd first) = (watches w ++ [next_watch w])%list.
Proof.
  intros Hgeo Hidle first. subst first.
  unfold startTracking, startTracking_request, startTracking_success.
  destruct (initialized (gpsTracker w)) eqn:Hinit.
  - rewrite Hidle, Hgeo.
    match goal with
    | |- context [savePositionToBackend p ?w0] =>
        destruct (savePositionToBackend_shape p w0) as (r & rq & c & Hsave)
    end.
    rewrite Hsave. destruct w as [t geo ws nw ts nt os oc a sm ms es rs cs ck].
    destruct t as [o wid lp tr uc ini ps iid].
    reduce_in Hgeo. reduce_in Hinit. subst geo ini. reduce.
    repeat split; reflexivity.
  - unfold initialize, initialize_begin. rewrite Hgeo.
    destruct w as [t geo ws nw ts nt os oc a sm ms es rs cs ck].
    destruct t as [o wid lp tr uc ini ps iid].
    reduce_in Hgeo. reduce_in Hidle. subst geo tr.
    destruct q as [s | e]; reduce;
      match goal with
      | |- context [savePositionToBackend p ?w0] =>
          destruct (savePositionToBackend_shape p w0) as (r & rq & c & Hsave)
      end; rewrite Hsave; reduce; repeat split; reflexivity.
Qed.

(** C5. On an idle tracker with no subscription, in a browser with
    geolocation that answers the first request with a position, two calls
    of [startTracking()] in a row, each awaited, both resolve to [true];
    the second call only writes a console line: the tracker is as the first
    call left it, and the one subscription opened by the first call is the
    only one. *)
Theorem startTracking_twice
    (q1 q2 : PermissionQuery) (p : Position num) (g2 : GeoResult num) (w : World) :
  geolocation w = true ->
  isTracking (gpsTracker w) = false ->
  watches w = [] ->
  let first := startTracking q1 (geo_position p) w in
  let second := startTracking q2 g2 (snd first) in
  fst first = Resolved true /\
  fst second = Resolved true /\
  snd second = console_print Log "Already tracking GPS" "" (snd first) /\
  gpsTracker (snd second) = gpsTracker (snd first) /\
  isTracking (gpsTracker (snd second)) = true /\
  watchId (gpsTracker (snd second)) = Some (next_watch w) /\
  watches (snd second) = [next_watch w] /\
  timers (snd second) = timers (snd first).
Proof.
  intros Hgeo Hidle Hwatches first second.
  destruct (startTracking_first q1 p w Hgeo Hidle) as (Hres & Hinit & Htrack & Hid & Hw).
  fold first in Hres, Hinit, Htrack, Hid, Hw.
  rewrite Hwatches in Hw.
  assert (Hsecond : second =
                    (Resolved true, console_print Log "Already tracking GPS" "" (snd first))).
  { subst second. apply startTracking_while_tracking; assumption. }
  rewrite Hsecond. clearbody first. clear Hsecond second.
  change (snd (Resolved true, console_print Log "Already tracking GPS" "" (snd first)))
    with (console_print Log "Already tracking GPS" "" (snd first)).
  change (fst (Resolved true, console_print Log "Already tracking GPS" "" (snd first)))
    with (@Resolved bool true).
  unfold console_print.
  change (gpsTracker (set_console ?c ?x)) with (gpsTracker x).
  change (watches (set_console ?c ?x)) with (watches x).
  change (timers (set_console ?c ?x)) with (timers x).
  repeat split; assumption || reflexivity.
Qed.

(** *** Stopping *)

(** C6. [stopTracking()] on an idle tracker (not tracking, no subscription
    handle, no poll handle) writes its console line and changes nothing
    else; and after any call of [stopTracking()] a second call leaves the
    tracker, the subscriptions and the timers as the first one left them. *)
Theorem stopTracking_idle_noop (w : World) :
  (idle (gpsTracker w) ->
   stopTracking w = (Normal tt, console_print Log "GPS tracking stopped" "" w) /\
   gpsTracker (snd (stopTracking w)) = gpsTracker w) /\
  (let once := snd (stopTracking w) in
   let twice := snd (stopTracking once) in
   gpsTracker twice = gpsTracker once /\
   watches twice = watches once /\
   timers twice = timers once).
Proof.
  destruct w as [t geo ws nw ts nt os oc a sm ms es rs cs ck].
  destruct t as [o wid lp tr uc ini ps iid].
  split.
  - unfold idle, has_timer. cbn. intros (Htr & Hwid & Htimer). subst tr wid.
    destruct iid as [ | | id]; [ | | discriminate Htimer]; split; reflexivity.
  - destruct wid as [id | ]; [destruct geo | ]; destruct iid as [ | | tid];
      reduce; repeat split; reflexivity.
Qed.

(** After a call of [stopTracking()] that completes, the tracker is idle
    and the handles it held are cancelled. *)
Lemma stopTracking_cancels (w : World) :
  geolocation w = true ->
  let w' := snd (stopTracking w) in
  fst (stopTracking w) = Normal tt /\
  idle (gpsTracker w') /\
  (forall id, watchId (gpsTracker w) = Some id -> ~ In id (watches w')) /\
  (forall id, intervalId (gpsTracker w) = timer_id id -> ~ In id (timers w')) /\
  lastPosition (gpsTracker w') = lastPosition (gpsTracker w) /\
  options (gpsTracker w') = options (gpsTracker w) /\
  clock w' = clock w.
Proof.
  destruct w as [t geo ws nw ts nt os oc a sm ms es rs cs ck].
  destruct t as [o wid lp tr uc ini ps iid].
  cbn [geolocation]. intros Hgeo. subst geo.
  destruct wid as [id | ]; destruct iid as [ | | tid]; reduce;
    (split; [reflexivity | ]); (split; [repeat split; reflexivity | ]);
    (split; [ | split; [ | repeat split; reflexivity]]);
    intros i Hi; try discriminate Hi; injection Hi as Hi; subst i;
    intros Hin; apply filter_In in Hin; destruct Hin as [_ Hin].
  all: try (rewrite Z.eqb_refl in Hin; discriminate Hin).
  all: try (rewrite Pos.eqb_refl in Hin; discriminate Hin).
Qed.

(** *** The two callbacks *)

Lemma handlePosition_accept (p : Position num) (w : World) :
  shouldSavePosition (gpsTracker w) p = true ->
  events (handlePosition p w) = (events w ++ [mkPositionUpdate p (coords p) (clock w)])%list /\
  lastPosition (gpsTracker (handlePosition p w)) = Some p.
Proof.
  intros Haccept. unfold handlePosition. rewrite Haccept.
  match goal with
  | |- context [savePositionToBackend p ?w0] =>
      destruct (savePositionToBackend_shape p w0) as (r & rq & c & Hsave)
  end.
  rewrite Hsave. destruct w. split; reflexivity.
Qed.

Lemma handlePosition_reject (p : Position num) (w : World) :
  shouldSavePosition (gpsTracker w) p = false -> handlePosition p w = w.
Proof.
  intros Hreject. unfold handlePosition. rewrite Hreject. reflexivity.
Qed.

(** [handleError] writes its two console lines, shows the warning, and
    leaves everything but the consent flag alone. *)
Lemma handleError_effect (e : PositionError) (w : World) :
  exists m,
    handleError e w =
    showWarning m
      (this (if (code e =? PERMISSION_DENIED)%Z then set_userConsent false else fun t => t)
         (console_print Warn "GPS Error:" (message e) w)) /\
    (m = "Location permission denied. Please enable location services." <->
     code e = PERMISSION_DENIED).
Proof.
  unfold handleError.
  destruct (code e =? PERMISSION_DENIED)%Z eqn:Hdenied.
  - eexists. split; [reflexivity | ]. apply Z.eqb_eq in Hdenied. tauto.
  - apply Z.eqb_neq in Hdenied.
    destruct (code e =? POSITION_UNAVAILABLE)%Z;
      [ | destruct (code e =? TIMEOUT)%Z];
      eexists; (split; [destruct w as [[] ]; reflexivity | ]);
      split; intros Hm; try discriminate Hm; contradiction.
Qed.

Lemma showWarning_effect (m : string) (w : World) :
  let w' := showWarning m w in
  gpsTracker w' = gpsTracker w /\
  watches w' = watches w /\ timers w' = timers w /\ events w' = events w /\
  warnings w' = (warnings w ++ [(Warn, "GPS Warning:", m)])%list /\
  messages w' =
    (messages w ++ if showMessage w then [(m, "warning", 5000%Z)] else [])%list.
Proof.
  destruct w as [t geo ws nw ts nt os oc a sm ms es rs cs ck].
  unfold showWarning, console_print, warnings. cbn.
  destruct sm; cbn; rewrite filter_app; cbn; rewrite ?app_nil_r;
    repeat split; reflexivity.
Qed.

(** What [handleError] changes: the consent flag on a denied permission,
    and one warning in every case. *)
Lemma handleError_notifies (e : PositionError) (w : World) :
  let w' := handleError e w in
  exists m,
    (m = "Location permission denied. Please enable location services." <->
     code e = PERMISSION_DENIED) /\
    gpsTracker w' =
      (if (code e =? PERMISSION_DENIED)%Z then set_userConsent false (gpsTracker w)
       else gpsTracker w) /\
    watches w' = watches w /\ timers w' = timers w /\ events w' = events w /\
    warnings w' = (warnings w ++ [(Warn, "GPS Warning:", m)])%list /\
    messages w' =
      (messages w ++ if showMessage w then [(m, "warning", 5000%Z)] else [])%list.
Proof.
  intros w'. subst w'.
  destruct (handleError_effect e w) as (m & Heq & Hm). exists m.
  split; [exact Hm | ]. rewrite Heq.
  match goal with
  | |- context [showWarning m ?w0] =>
      destruct (showWarning_effect m w0) as (Ht & Hws & Hts & Hev & Hwarn & Hmsg)
  end.
  rewrite Ht, Hws, Hts, Hev, Hwarn, Hmsg.
  destruct w as [t geo ws nw ts nt os oc a sm ms es rs cs ck].
  unfold warnings, console_print, this. cbn.
  rewrite filter_app. cbn. rewrite app_nil_r.
  destruct (code e =? PERMISSION_DENIED)%Z; repeat split; reflexivity.
Qed.


(** C8. On an error with the code [PERMISSION_DENIED], [handleError] clears
    the consent flag and shows exactly one warning; the tracking flag, the
    subscription handle and the timer handle, and the subscriptions and
    timers themselves, stay as they are.  [handleError] returns a world: it
    has no way to throw. *)
Theorem handleError_permission_denied (e : PositionError) (w : World) :
  code e = PERMISSION_DENIED ->
  let w' := handleError e w in
  let text := "Location permission denied. Please enable location services." in
  gpsTracker w' = set_userConsent false (gpsTracker w) /\
  userConsent (gpsTracker w') = false /\
  isTracking (gpsTracker w') = isTracking (gpsTracker w) /\
  watchId (gpsTracker w') = watchId (gpsTracker w) /\
  intervalId (gpsTracker w') = intervalId (gpsTracker w) /\
  watches w' = watches w /\
  timers w' = timers w /\
  warnings w' = (warnings w ++ [(Warn, "GPS Warning:", text)])%list /\
  List.length (warnings w') = S (List.length (warnings w)) /\
  messages w' =
    (messages w ++ if showMessage w then [(text, "warning", 5000%Z)] else [])%list.
Proof.
  intros Hcode w' text.
  destruct (handleError_notifies e w)
    as (m & Hm & Ht & Hws & Hts & _ & Hwarn & Hmsg).
  fold w' in Ht, Hws, Hts, Hwarn, Hmsg.
  assert (Htext : m = text) by (apply Hm; exact Hcode). subst m.
  rewrite Hcode in Ht. cbn in Ht.
  rewrite Ht, Hws, Hts, Hwarn, Hmsg, length_app. cbn [List.length].
  repeat split; try reflexivity. apply Nat.add_1_r.
Qed.

(** *** The handle and the tracking flag *)

Lemma handles_showWarning (m : string) (w : World) :
  handles (showWarning m w) = handles w.
Proof.
  unfold handles. destruct (showWarning_effect m w) as (Ht & _).
  rewrite Ht. reflexivity.
Qed.

Lemma handles_handleError (e : PositionError) (w : World) :
  handles (handleError e w) = handles w.
Proof.
  unfold handles.
  destruct (handleError_notifies e w) as (m & _ & Ht & _). rewrite Ht.
  destruct (code e =? PERMISSION_DENIED)%Z; reflexivity.
Qed.

Lemma handles_savePositionToBackend (p : Position num) (w : World) :
  handles (snd (savePositionToBackend p w)) = handles w.
Proof.
  destruct (savePositionToBackend_shape p w) as (r & rq & c & Hsave).
  rewrite Hsave. reflexivity.
Qed.

Lemma handles_handlePosition (p : Position num) (w : World) :
  handles (handlePosition p w) = handles w.
Proof.
  unfold handlePosition.
  destruct (shouldSavePosition (gpsTracker w) p); [ | reflexivity].
  unfold emitPositionUpdate.
  match goal with
  | |- context [savePositionToBackend p ?w0] =>
      pose proof (handles_savePositionToBackend p w0) as Hsave
  end.
  unfold handles in *. cbn in *. exact Hsave.
Qed.

Lemma handles_initialize_begin (w : World) :
  handles (snd (initialize_begin w)) = handles w.
Proof.
  unfold initialize_begin. destruct (geolocation w); cbn [negb snd]; [reflexivity | ].
  rewrite handles_showWarning. reflexivity.
Qed.

Lemma handles_initialize_resume (q : PermissionQuery) (w : World) :
  handles (snd (initialize_resume q w)) = handles w.
Proof. destruct q; reflexivity. Qed.

Lemma handles_initialize (q : PermissionQuery) (w : World) :
  handles (snd (initialize q w)) = handles w.
Proof.
  unfold initialize.
  pose proof (handles_initialize_begin w) as Hbegin.
  destruct (initialize_begin w) as [[b | e | ] w0]; cbn [snd] in *;
    try exact Hbegin; rewrite handles_initialize_resume; exact Hbegin.
Qed.

Lemma handles_startTracking_request (w : World) :
  handles (snd (startTracking_request w)) = handles w.
Proof.
  unfold startTracking_request.
  destruct (isTracking (gpsTracker w)); [reflexivity | ].
  destruct (geolocation w); reflexivity.
Qed.

Lemma handles_startTracking_begin (w : World) :
  handles (snd (startTracking_begin w)) = handles w.
Proof.
  unfold startTracking_begin. destruct (initialized (gpsTracker w)).
  - apply handles_startTracking_request.
  - apply handles_initialize_begin.
Qed.

Lemma handles_interval_callback (w : World) :
  handles (interval_callback w) = handles w.
Proof.
  unfold interval_callback.
  destruct (lastPosition (gpsTracker w)); [ | reflexivity].
  destruct (geolocation w); reflexivity.
Qed.

Lemma handles_savePositionToBackend_resume (r : Completion Response) (w : World) :
  handles (snd (savePositionToBackend_resume r w)) = handles w.
Proof.
  destruct r as [[ | error] | e]; cbn; try reflexivity.
  destruct (truthy error); reflexivity.
Qed.

(** [stopTracking] clears both, or throws before touching either. *)
Lemma handles_stopTracking (w : World) :
  handles (snd (stopTracking w)) = (None, false) \/
  handles (snd (stopTracking w)) = handles w.
Proof.
  destruct w as [t geo ws nw ts nt os oc a sm ms es rs cs ck].
  destruct t as [o wid lp tr uc ini ps iid].
  destruct wid as [id | ]; [destruct geo | ]; destruct iid as [ | | tid];
    reduce; tauto.
Qed.

(** The success callback sets both, or throws before touching either. *)
Lemma handles_startTracking_success (p : Position num) (w : World) :
  (exists id, handles (snd (startTracking_success p w)) = (Some id, true)) \/
  handles (snd (startTracking_success p w)) = handles w.
Proof.
  unfold startTracking_success.
  match goal with
  | |- context [savePositionToBackend p ?w0] =>
      destruct (savePositionToBackend_shape p w0) as (r & rq & c & Hsave)
  end.
  rewrite Hsave.
  destruct w as [t geo ws nw ts nt os oc a sm ms es rs cs ck].
  destruct geo; reduce; [left; eexists; reflexivity | right; reflexivity].
Qed.

Lemma handles_invariant (w : World) :
  handle_invariant (gpsTracker w) <->
  (exists id, handles w = (Some id, true)) \/ handles w = (None, false).
Proof.
  unfold handle_invariant, handles.
  destruct (watchId (gpsTracker w)) as [id | ];
    destruct (isTracking (gpsTracker w)); split.
  - intros _. left. exists id. reflexivity.
  - intros _. split; intros _; [reflexivity | discriminate].
  - intros [Hw _]. discriminate Hw. discriminate.
  - intros [[i Hi] | Hi]; discriminate Hi.
  - intros [_ Hw]. exfalso. apply Hw; reflexivity.
  - intros [[i Hi] | Hi]; discriminate Hi.
  - intros _. right. reflexivity.
  - intros _. split; intros Hx; [exfalso; apply Hx; reflexivity | discriminate Hx].
Qed.

Lemma invariant_transfer (w w' : World) :
  (exists id, handles w' = (Some id, true)) \/ handles w' = (None, false) \/
  handles w' = handles w ->
  handle_invariant (gpsTracker w) -> handle_invariant (gpsTracker w').
Proof.
  intros Hcases Hinv. apply handles_invariant. apply handles_invariant in Hinv.
  destruct Hcases as [Hset | [Hclear | Hsame]].
  - left. exact Hset.
  - right. exact Hclear.
  - rewrite Hsame. exact Hinv.
Qed.

Lemma handles_startTracking (q : PermissionQuery) (g : GeoResult num) (w : World) :
  (exists id, handles (snd (startTracking q g w)) = (Some id, true)) \/
  handles (snd (startTracking q g w)) = handles w.
Proof.
  unfold startTracking.
  set (w0 := if initialized (gpsTracker w) then w else snd (initialize q w)).
  assert (H0 : handles w0 = handles w).
  { subst w0. destruct (initialized (gpsTracker w));
      [reflexivity | apply handles_initialize]. }
  pose proof (handles_startTracking_request w0) as Hreq.
  destruct (startTracking_request w0) as [[b | e | ] w1]; cbn [snd] in *.
  - right. congruence.
  - right. congruence.
  - destruct g as [p | e].
    + destruct (handles_startTracking_success p w1) as [Hset | Hsame].
      * left. exact Hset.
      * right. congruence.
    + right. unfold startTracking_error. cbn [snd].
      rewrite handles_handleError. congruence.
Qed.

Lemma handles_permission_onchange (s : PermissionState) (w : World) :
  handles (permission_onchange s w) = (None, false) \/
  handles (permission_onchange s w) = handles w.
Proof.
  unfold permission_onchange.
  set (w0 := console_print Log "GPS permission changed to:" (state_name s)
               (this (set_permissionState (Some s)) w)).
  assert (H0 : handles w0 = handles w) by reflexivity.
  destruct s.
  - right. destruct (autoStart (options (gpsTracker w0))); [ | exact H0].
    rewrite handles_startTracking_begin. exact H0.
  - pose proof (handles_stopTracking w0) as Hstop.
    destruct (stopTracking w0) as [[[] | e] w1]; cbn [snd] in Hstop.
    + rewrite handles_showWarning.
      destruct Hstop as [Hclear | Hsame]; [left; exact Hclear | right; congruence].
    + destruct Hstop as [Hclear | Hsame]; [left; exact Hclear | right; congruence].
  - right. exact H0.
Qed.

(** Every step keeps the invariant. *)
Lemma exec_preserves_invariant (a : Action) (w : World) :
  handle_invariant (gpsTracker w) -> handle_invariant (gpsTracker (exec a w)).
Proof.
  apply invariant_transfer.
  destruct a as [q | q g | | | q | | | p | e | p | e | s | | r | now]; cbn [exec].
  - right; right. apply handles_initialize.
  - destruct (handles_startTracking q g w) as [Hset | Hsame]; tauto.
  - destruct (handles_stopTracking w) as [Hclear | Hsame]; tauto.
  - right; right. apply handles_initialize_begin.
  - right; right. apply handles_initialize_resume.
  - right; right. apply handles_startTracking_begin.
  - right; right. apply handles_startTracking_request.
  - destruct (handles_startTracking_success p w) as [Hset | Hsame]; tauto.
  - right; right. unfold startTracking_error. cbn [snd]. apply handles_handleError.
  - right; right. apply handles_handlePosition.
  - right; right. apply handles_handleError.
  - destruct (handles_permission_onchange s w) as [Hclear | Hsame]; tauto.
  - right; right. apply handles_interval_callback.
  - right; right. apply handles_savePositionToBackend_resume.
  - right; right. reflexivity.
Qed.

Lemma run_preserves_invariant (acts : list Action) (w : World) :
  handle_invariant (gpsTracker w) -> handle_invariant (gpsTracker (run acts w)).
Proof.
  revert w. induction acts as [ | a acts IH]; intros w Hinv.
  - exact Hinv.
  - cbn [run fold_left]. apply IH. apply exec_preserves_invariant. exact Hinv.
Qed.

Lemma constructor_invariant (o : OptionsArg num) : handle_invariant (constructor o).
Proof.
  unfold handle_invariant. cbn.
  split; intros Hx; [exfalso; apply Hx; reflexivity | discriminate Hx].
Qed.

(** C9. The subscription handle is set exactly when the tracker is
    tracking: this holds for a tracker just constructed, every step of the
    tracker keeps it (the awaited calls of [initialize], [startTracking]
    with both of its outcomes and [stopTracking], the callbacks
    [handlePosition] and [handleError], and every uninterrupted piece of
    the [async] methods), and so it holds after every run of a loaded
    page. *)
Theorem handle_invariant_preserved :
  (forall o : OptionsArg num, handle_invariant (constructor o)) /\
  (forall (a : Action) (w : World),
     handle_invariant (gpsTracker w) -> handle_invariant (gpsTracker (exec a w))) /\
  (forall (b : Browser) (o : OptionsArg num) (acts : list Action),
     handle_invariant (gpsTracker (run acts (load b o)))).
Proof.
  split; [exact constructor_invariant | ].
  split; [exact exec_preserves_invariant | ].
  intros b o acts. apply run_preserves_invariant. apply constructor_invariant.
Qed.

(** *** The reporter *)

(** C10. With the [api] object of [api.js] in [window.api],
    [savePositionToBackend] resolves to [false] for every position: the
    object has no [saveLocation], the call throws, the [catch] logs the
    error, and no request reaches the backend. *)
Theorem savePositionToBackend_without_saveLocation (p : Position num) (w : World) :
  api w = Some ApiJs.api ->
  window_api_saveLocation (api w) =
    Throw "TypeError: window.api.saveLocation is not a function" /\
  savePositionToBackend p w =
    (Resolved false,
     console_print Error "Error saving location:"
       "TypeError: window.api.saveLocation is not a function" w) /\
  requests (snd (savePositionToBackend p w)) = requests w /\
  gpsTracker (snd (savePositionToBackend p w)) = gpsTracker w.
Proof.
  intros Hapi. unfold savePositionToBackend. rewrite Hapi.
  repeat split; reflexivity.
Qed.

End Lifecycle.

(** ** Instances in the fixture page *)

Lemma startTracking_twice_witness :
  fst (startTracking (query_resolves granted)
         (geo_position Fixture.one_degree_east) Fixture.tracking) = Resolved true /\
  watches (snd (startTracking (query_resolves granted)
                  (geo_position Fixture.one_degree_east) Fixture.tracking)) = [1%Z].
Proof.
  pose proof (startTracking_twice
                (query_resolves granted) (query_resolves granted) Fixture.origin
                (geo_position Fixture.one_degree_east) Fixture.fresh
                eq_refl eq_refl eq_refl) as Htwice.
  cbv zeta in Htwice.
  destruct Htwice as (_ & Hsecond & _ & _ & _ & _ & Hwatches & _).
  split; [exact Hsecond | exact Hwatches].
Defined.

Lemma stopTracking_idle_noop_witness :
  stopTracking Fixture.fresh =
  (Normal tt, console_print Log "GPS tracking stopped" "" Fixture.fresh).
Proof.
  apply (proj1 (stopTracking_idle_noop Fixture.fresh)).
  unfold idle. repeat split; reflexivity.
Defined.


Lemma handleError_permission_denied_witness :
  userConsent (gpsTracker (handleError Fixture.permission_denied Fixture.tracking)) = false /\
  isTracking (gpsTracker (handleError Fixture.permission_denied Fixture.tracking)) = true.
Proof.
  pose proof (handleError_permission_denied
                Fixture.permission_denied Fixture.tracking eq_refl) as Hdenied.
  cbv zeta in Hdenied.
  destruct Hdenied as (_ & Hconsent & Htracking & _).
  split; [exact Hconsent | exact Htracking].
Defined.

Lemma handle_invariant_preserved_witness :
  handle_invariant (gpsTracker (exec call_stopTracking Fixture.tracking)).
Proof.
  apply (proj1 (proj2 (handle_invariant_preserved (num:=R)))).
  unfold handle_invariant.
  split; intros Hx; [reflexivity | intros Hy; lazy in Hy; discriminate Hy].
Defined.

Lemma savePositionToBackend_without_saveLocation_witness :
  fst (savePositionToBackend Fixture.origin Fixture.fresh) = Resolved false.
Proof.
  pose proof (savePositionToBackend_without_saveLocation
                Fixture.origin Fixture.fresh eq_refl) as (_ & Hsave & _).
  rewrite Hsave. reflexivity.
Defined.


(** Two calls of [startTracking()] made before either has its answer both
    ask for a position; each success callback then opens a subscription and
    a timer, and the tracker keeps the second pair of handles only.  (In
    [startTracking_twice] each call is awaited before the next.) *)
Example startTracking_overlapping :
  let w := run [ call_initialize (query_resolves prompt);
                 do_startTracking_begin; do_startTracking_begin;
                 do_startTracking_success Fixture.origin;
                 do_startTracking_success Fixture.one_degree_east ]
               Fixture.fresh in
  watches w = [1%Z; 2%Z] /\ watchId (gpsTracker w) = Some 2%Z /\
  timers w = [1%positive; 2%positive] /\ intervalId (gpsTracker w) = timer_id 2.
Proof. repeat split; reflexivity. Qed.

(** ** More about the distance over the real numbers *)

Section RealDistanceBounds.
Local Open Scope R_scope.










End RealDistanceBounds.




(** ** More about the life cycle *)

Section LifecycleMore.
Context {num : Type} `{JSNumber num}.

Abbreviation World := (World num).

Ltac world w :=
  destruct w as [[o wid lp tr uc ini ps iid] geo ws nw ts nt os oc a sm ms es rs cs ck].

Ltac step :=
  lazy -[window_api_saveLocation Z.add Pos.succ app filter String.eqb Z.eqb
         Pos.eqb List.length].

Ltac step_in H :=
  lazy -[window_api_saveLocation Z.add Pos.succ app filter String.eqb Z.eqb
         Pos.eqb List.length] in H.

Ltac save_cases :=
  repeat match goal with
         | |- context [window_api_saveLocation ?a] =>
             destruct (window_api_saveLocation a)
         end.

(** X5. The filter looks at the latitude and the longitude only: accuracy,
    altitude, heading, speed and timestamp of the last position and of the
    candidate, and every field of the tracker but the threshold, have no
    part in the decision. *)
Theorem shouldSavePosition_only_coordinates
    (t t' : GPSTracker num) (last last' candidate candidate' : Position num) :
  lastPosition t = Some last ->
  lastPosition t' = Some last' ->
  latitude (coords last) = latitude (coords last') ->
  longitude (coords last) = longitude (coords last') ->
  latitude (coords candidate) = latitude (coords candidate') ->
  longitude (coords candidate) = longitude (coords candidate') ->
  minDistance (options t) = minDistance (options t') ->
  shouldSavePosition t candidate = shouldSavePosition t' candidate'.
Proof.
  intros Hl Hl' Hlat Hlon Hclat Hclon Hmin. unfold shouldSavePosition.
  rewrite Hl, Hl', Hlat, Hlon, Hclat, Hclon, Hmin. reflexivity.
Qed.

(** X6. [initialize()] resolves to [false] only in a browser without
    geolocation: it then shows one warning and leaves the tracker as it
    was, not initialized.  With geolocation it resolves to [true] and marks
    the tracker initialized whether the permission query answers or fails;
    the permission state and its change handler are set only when it
    answers. *)
Theorem initialize_outcomes (q : PermissionQuery) (w : World) :
  let w' := snd (initialize q w) in
  (geolocation w = false ->
   fst (initialize q w) = false /\
   gpsTracker w' = gpsTracker w /\
   onchange w' = onchange w /\
   List.length (warnings w') = S (List.length (warnings w))) /\
  (geolocation w = true ->
   fst (initialize q w) = true /\
   initialized (gpsTracker w') = true /\
   warnings w' = warnings w /\
   match q with
   | query_resolves s =>
       permissionState (gpsTracker w') = Some s /\ onchange w' = true
   | query_fails _ =>
       permissionState (gpsTracker w') = permissionState (gpsTracker w) /\
       onchange w' = onchange w
   end).
Proof.
  world w. cbn [geolocation]. split; intros Hgeo; subst geo.
  - destruct sm; step; rewrite filter_app, length_app; cbn;
      rewrite filter_app, length_app; cbn;
      repeat split; try reflexivity; lia.
  - destruct q as [s | e]; step; repeat split; try reflexivity.
    rewrite filter_app. cbn. apply app_nil_r.
Qed.

(** X7. Without geolocation [startTracking()] is rejected: the tracker
    stays idle and no subscription, timer or position request is made. *)
Theorem startTracking_without_geolocation
    (q : PermissionQuery) (g : GeoResult num) (w : World) :
  geolocation w = false ->
  isTracking (gpsTracker w) = false ->
  let w' := snd (startTracking q g w) in
  fst (startTracking q g w) = Rejected "TypeError: navigator.geolocation is undefined" /\
  gpsTracker w' = gpsTracker w /\
  watches w' = watches w /\ timers w' = timers w /\
  oneshots w' = oneshots w /\ events w' = events w /\ requests w' = requests w.
Proof.
  world w. cbn [geolocation gpsTracker isTracking]. intros Hgeo Htr. subst geo tr.
  destruct ini, sm; step; repeat split; reflexivity.
Qed.

Lemma startTracking_failure_state
    (q : PermissionQuery) (e : PositionError) (w : World) :
  geolocation w = true ->
  isTracking (gpsTracker w) = false ->
  let w' := snd (startTracking q (geo_error e) w) in
  fst (startTracking q (geo_error e) w) = Resolved false /\
  isTracking (gpsTracker w') = false /\
  watchId (gpsTracker w') = watchId (gpsTracker w) /\
  intervalId (gpsTracker w') = intervalId (gpsTracker w) /\
  lastPosition (gpsTracker w') = lastPosition (gpsTracker w) /\
  userConsent (gpsTracker w') =
    (if (code e =? PERMISSION_DENIED)%Z then false else userConsent (gpsTracker w)) /\
  watches w' = watches w /\ timers w' = timers w /\ events w' = events w /\
  requests w' = requests w /\
  oneshots w' = S (oneshots w) /\
  List.length (warnings w') = S (List.length (warnings w)).
Proof.
  intros Hgeo Htr w'.
  assert (Hrun : exists w0,
             startTracking q (geo_error e) w = (Resolved false, handleError e w0) /\
             gpsTracker w0 =
               (if initialized (gpsTracker w) then gpsTracker w
                else gpsTracker (snd (initialize_resume q w))) /\
             watches w0 = watches w /\ timers w0 = timers w /\
             events w0 = events w /\ requests w0 = requests w /\
             oneshots w0 = S (oneshots w) /\ warnings w0 = warnings w).
  { world w. cbn [geolocation gpsTracker isTracking] in Hgeo, Htr. subst geo tr.
    destruct ini; [ | destruct q as [s | err]]; eexists;
      (split;
       [lazy -[handleError window_api_saveLocation Z.add Pos.succ app filter
               String.eqb Z.eqb Pos.eqb List.length]; reflexivity | ]);
      step; repeat split; try reflexivity.
    rewrite filter_app. cbn. apply app_nil_r. }
  destruct Hrun as (w0 & Heq & Ht & Hws & Hts & Hes & Hrs & Hos & Hwarn).
  subst w'. rewrite Heq. cbn [fst snd].
  destruct (handleError_notifies e w0) as (m & _ & Ht' & Hws' & Hts' & Hes' & Hwarn' & _).
  assert (Hframe : requests (handleError e w0) = requests w0 /\
                   oneshots (handleError e w0) = oneshots w0).
  { destruct (handleError_effect e w0) as (m' & Heff & _). rewrite Heff.
    unfold showWarning, console_print, this.
    destruct w0 as [t0 geo0 ws0 nw0 ts0 nt0 os0 oc0 a0 sm0 ms0 es0 rs0 cs0 ck0].
    destruct sm0; split; reflexivity. }
  destruct Hframe as [Hrs' Hos'].
  rewrite Ht', Hws', Hts', Hes', Hwarn', Hrs', Hos', Ht, Hws, Hts, Hes, Hrs, Hos, Hwarn.
  rewrite length_app. cbn [List.length].
  world w. cbn [geolocation gpsTracker isTracking] in Hgeo, Htr. subst geo tr.
  destruct ini; [ | destruct q as [s | err]];
    destruct (code e =? PERMISSION_DENIED)%Z;
    cbn; repeat split; try reflexivity; lia.
Qed.

(** X8. When the first position request of [startTracking()] fails, the
    call resolves to [false] with one warning; the tracker is not tracking,
    nothing is subscribed, no timer runs, the last position is as before,
    and the consent flag is cleared when the error is a denied
    permission. *)
Theorem startTracking_first_fix_fails
    (q : PermissionQuery) (e : PositionError) (w : World) :
  geolocation w = true ->
  isTracking (gpsTracker w) = false ->
  let w' := snd (startTracking q (geo_error e) w) in
  fst (startTracking q (geo_error e) w) = Resolved false /\
  isTracking (gpsTracker w') = false /\
  watchId (gpsTracker w') = watchId (gpsTracker w) /\
  intervalId (gpsTracker w') = intervalId (gpsTracker w) /\
  lastPosition (gpsTracker w') = lastPosition (gpsTracker w) /\
  userConsent (gpsTracker w') =
    (if (code e =? PERMISSION_DENIED)%Z then false else userConsent (gpsTracker w)) /\
  watches w' = watches w /\ timers w' = timers w /\ events w' = events w /\
  requests w' = requests w /\
  oneshots w' = S (oneshots w) /\
  List.length (warnings w') = S (List.length (warnings w)).
Proof. exact (startTracking_failure_state q e w). Qed.

Ltac warn_tac := rewrite ?filter_app; cbn; rewrite ?app_nil_r.

Ltac case_var :=
  match goal with
  | |- context [match ?c with _ => _ end] => is_var c; destruct c
  end.

Ltac case_stuck :=
  match goal with
  | |- context [window_api_saveLocation ?a] => destruct (window_api_saveLocation a)
  | |- context [Z.eqb ?x ?y] => destruct (Z.eqb x y) eqn:?
  | |- context [String.eqb ?x ?y] => destruct (String.eqb x y) eqn:?
  end.

Ltac split_cases :=
  repeat (step; try reflexivity; first [case_var | case_stuck]).


(** The state after a first position request that succeeds. *)
Lemma startTracking_success_state
    (q : PermissionQuery) (p : Position num) (w : World) :
  geolocation w = true ->
  isTracking (gpsTracker w) = false ->
  let w' := snd (startTracking q (geo_position p) w) in
  (fst (startTracking q (geo_position p) w) = Resolved true /\
   isTracking (gpsTracker w') = true /\
   userConsent (gpsTracker w') = true /\
   lastPosition (gpsTracker w') = Some p /\
   watchId (gpsTracker w') = Some (next_watch w) /\
   intervalId (gpsTracker w') = timer_id (next_timer w) /\
   watches w' = (watches w ++ [next_watch w])%list /\
   timers w' = (timers w ++ [next_timer w])%list /\
   oneshots w' = S (oneshots w) /\
   events w' = events w /\
   warnings w' = warnings w /\
   requests w' =
     match window_api_saveLocation (api w) with
     | Normal f =>
         (requests w ++
          [(f, mkLocationData
                 (latitude (coords p)) (longitude (coords p)) (accuracy (coords p))
                 (altitude (coords p)) (altitudeAccuracy (coords p))
                 (heading (coords p)) (speed (coords p)) (timestamp p))])%list
     | Throw _ => requests w
     end) /\
  geolocation w' = true /\
  initialized (gpsTracker w') = true /\
  next_watch w' = (next_watch w + 1)%Z /\
  next_timer w' = Pos.succ (next_timer w).
Proof.
  world w. cbn [geolocation gpsTracker isTracking]. intros Hgeo Htr. subst geo tr.
  destruct ini; [ | destruct q as [s | err]]; step;
    destruct (window_api_saveLocation a); step;
    repeat split; try reflexivity; warn_tac; reflexivity.
Qed.

(** X9. When the first position request of [startTracking()] on an idle
    tracker succeeds, the call resolves to [true]: the consent flag is set,
    the position becomes the last position, one subscription and one timer
    are opened and their handles kept, and the position is handed to the
    reporter; no position-update event is dispatched for this first
    position and no warning is shown. *)
Theorem startTracking_first_fix_succeeds
    (q : PermissionQuery) (p : Position num) (w : World) :
  geolocation w = true ->
  isTracking (gpsTracker w) = false ->
  let w' := snd (startTracking q (geo_position p) w) in
  fst (startTracking q (geo_position p) w) = Resolved true /\
  isTracking (gpsTracker w') = true /\
  userConsent (gpsTracker w') = true /\
  lastPosition (gpsTracker w') = Some p /\
  watchId (gpsTracker w') = Some (next_watch w) /\
  intervalId (gpsTracker w') = timer_id (next_timer w) /\
  watches w' = (watches w ++ [next_watch w])%list /\
  timers w' = (timers w ++ [next_timer w])%list /\
  oneshots w' = S (oneshots w) /\
  events w' = events w /\
  warnings w' = warnings w /\
  requests w' =
    match window_api_saveLocation (api w) with
    | Normal f =>
        (requests w ++
         [(f, mkLocationData
                (latitude (coords p)) (longitude (coords p)) (accuracy (coords p))
                (altitude (coords p)) (altitudeAccuracy (coords p))
                (heading (coords p)) (speed (coords p)) (timestamp p))])%list
    | Throw _ => requests w
    end.
Proof.
  intros Hgeo Htr. exact (proj1 (startTracking_success_state q p w Hgeo Htr)).
Qed.

(** Only [handlePosition] dispatches events. *)
Lemma exec_events (a : Action) (w : World) :
  emits a = false -> events (exec a w) = events w.
Proof.
  destruct a as [q | q g | | | q | | | p | e | p | e | s | | r | now];
    cbn [emits]; intros Hemits; try discriminate Hemits; world w.
  - split_cases.
  - split_cases.
  - split_cases.
  - split_cases.
  - split_cases.
  - split_cases.
  - split_cases.
  - split_cases.
  - split_cases.
  - split_cases.
  - split_cases.
  - split_cases.
  - split_cases.
  - split_cases.
Qed.

Lemma handlePosition_events (p : Position num) (w : World) :
  List.length (events (handlePosition p w)) <= S (List.length (events w)).
Proof.
  destruct (shouldSavePosition (gpsTracker w) p) eqn:Hfilter.
  - destruct (handlePosition_accept p w Hfilter) as [Hev _].
    rewrite Hev, length_app. cbn. lia.
  - rewrite (handlePosition_reject p w Hfilter). lia.
Qed.

(** X10. Position-update events come from [handlePosition] alone: no other
    piece of the tracker changes the list of dispatched events, and a run
    dispatches at most one event for each call of [handlePosition] in it. *)
Theorem events_only_from_handlePosition (acts : list Action) (w : World) :
  (forall a, emits a = false -> events (exec a w) = events w) /\
  List.length (events (run acts w)) <=
  List.length (events w) + List.length (filter emits acts).
Proof.
  split; [intros a; apply exec_events | ].
  revert w. induction acts as [ | a acts IH]; intros w.
  - cbn. lia.
  - cbn [run fold_left filter]. fold (run acts (exec a w)).
    specialize (IH (exec a w)).
    destruct (emits a) eqn:Hemits.
    + destruct a; try discriminate Hemits. cbn [exec] in *.
      pose proof (handlePosition_events p w). cbn [List.length]. lia.
    + rewrite (exec_events a w Hemits) in IH. exact IH.
Qed.

Ltac step2 :=
  lazy -[window_api_saveLocation shouldSavePosition Z.add Pos.succ app
         String.eqb Z.eqb Pos.eqb List.length];
  rewrite ?Z.eqb_refl, ?Pos.eqb_refl.

Ltac case_filter :=
  match goal with
  | |- context [shouldSavePosition ?t ?p] => destruct (shouldSavePosition t p)
  end.

Ltac explore :=
  repeat (step2; first [case_var | case_stuck | case_filter]); step2.


(** *** The pieces as steps of the core *)

Lemma core_showWarning (m : string) (w : World) : core (showWarning m w) = core w.
Proof. world w. destruct sm; reflexivity. Qed.

Lemma core_savePositionToBackend (p : Position num) (w : World) :
  core (snd (savePositionToBackend p w)) = core w.
Proof.
  destruct (savePositionToBackend_shape p w) as (r & rq & c & Hsave).
  rewrite Hsave. reflexivity.
Qed.

Lemma core_initialize_begin (w : World) : core (snd (initialize_begin w)) = core w.
Proof.
  unfold initialize_begin. destruct (geolocation w); cbn [negb snd]; [reflexivity | ].
  rewrite core_showWarning. reflexivity.
Qed.

Lemma core_initialize_resume (q : PermissionQuery) (w : World) :
  core (snd (initialize_resume q w)) = core w.
Proof. destruct q; reflexivity. Qed.

Lemma core_initialize (q : PermissionQuery) (w : World) :
  core (snd (initialize q w)) = core w.
Proof.
  unfold initialize. pose proof (core_initialize_begin w) as Hbegin.
  destruct (initialize_begin w) as [[b | e | ] w0]; cbn [snd] in *;
    try exact Hbegin; rewrite core_initialize_resume; exact Hbegin.
Qed.

Lemma core_startTracking_request (w : World) :
  core (snd (startTracking_request w)) = core w /\
  (fst (startTracking_request w) = Pending -> isTracking (gpsTracker w) = false).
Proof.
  unfold startTracking_request.
  destruct (isTracking (gpsTracker w)); [split; [reflexivity | discriminate] | ].
  destruct (geolocation w); split; try reflexivity; discriminate.
Qed.

Lemma core_startTracking_begin (w : World) :
  core (snd (startTracking_begin w)) = core w.
Proof.
  unfold startTracking_begin. destruct (initialized (gpsTracker w)).
  - apply core_startTracking_request.
  - apply core_initialize_begin.
Qed.

Lemma core_interval_callback (w : World) : core (interval_callback w) = core w.
Proof.
  unfold interval_callback.
  destruct (lastPosition (gpsTracker w)); [ | reflexivity].
  destruct (geolocation w); reflexivity.
Qed.

Lemma core_savePositionToBackend_resume (r : Completion Response) (w : World) :
  core (snd (savePositionToBackend_resume r w)) = core w.
Proof.
  destruct r as [[ | error] | e]; cbn; try reflexivity.
  destruct (truthy error); reflexivity.
Qed.

Lemma core_handleError (g : bool) (e : PositionError) (w : World) :
  core_step g (core w) (core (handleError e w)).
Proof.
  destruct (handleError_effect e w) as (m & Heq & _).
  rewrite Heq, core_showWarning.
  destruct (code e =? PERMISSION_DENIED)%Z.
  - apply step_consent_cleared.
  - apply step_same.
Qed.

Lemma core_handlePosition (g : bool) (p : Position num) (w : World) :
  core_step g (core w) (core (handlePosition p w)).
Proof.
  unfold handlePosition.
  destruct (shouldSavePosition (gpsTracker w) p); [ | apply step_same].
  unfold emitPositionUpdate.
  match goal with
  | |- context [savePositionToBackend p ?w0] =>
      pose proof (core_savePositionToBackend p w0) as Hsave
  end.
  unfold core, view in *. cbn in *.
  injection Hsave as -> -> -> -> -> -> ->.
  apply step_accepted.
Qed.

Lemma core_stopTracking (g : bool) (w : World) :
  core_step g (core w) (core (snd (stopTracking w))).
Proof.
  world w.
  destruct wid as [id | ]; [destruct geo | ]; destruct iid as [ | | tid];
    first [ exact (@step_same num g _)
          | exact (@step_stopped num g (Some id, tr, timer_undefined, ws, ts) lp uc)
          | exact (@step_stopped num g (Some id, tr, timer_null, ws, ts) lp uc)
          | exact (@step_stopped num g (Some id, tr, timer_id tid, ws, ts) lp uc)
          | exact (@step_stopped num g (None, tr, timer_undefined, ws, ts) lp uc)
          | exact (@step_stopped num g (None, tr, timer_null, ws, ts) lp uc)
          | exact (@step_stopped num g (None, tr, timer_id tid, ws, ts) lp uc) ].
Qed.

Lemma core_startTracking_success (g : bool) (p : Position num) (w : World) :
  (g = true -> isTracking (gpsTracker w) = false) ->
  core_step g (core w) (core (snd (startTracking_success p w))).
Proof.
  intros Hguard. unfold startTracking_success.
  match goal with
  | |- context [savePositionToBackend p ?w0] =>
      destruct (savePositionToBackend_shape p w0) as (r & rq & c & Hsave)
  end.
  rewrite Hsave. world w. cbn in Hguard.
  destruct geo.
  - exact (@step_first_fix num g wid tr iid ws ts lp uc p nw nt Hguard).
  - exact (@step_first_fix_abandoned num g (wid, tr, iid, ws, ts) lp uc p).
Qed.

Lemma core_startTracking (q : PermissionQuery) (g : GeoResult num) (w : World) :
  core_step true (core w) (core (snd (startTracking q g w))).
Proof.
  unfold startTracking.
  set (w0 := if initialized (gpsTracker w) then w else snd (initialize q w)).
  assert (H0 : core w0 = core w).
  { subst w0. destruct (initialized (gpsTracker w));
      [reflexivity | apply core_initialize]. }
  destruct (core_startTracking_request w0) as [Hreq Hidle].
  destruct (startTracking_request w0) as [[b | e | ] w1]; cbn [fst snd] in *.
  - rewrite Hreq, H0. apply step_same.
  - rewrite Hreq, H0. apply step_same.
  - rewrite <- H0, <- Hreq. destruct g as [p | e].
    + apply core_startTracking_success. intros _.
      specialize (Hidle eq_refl).
      assert (Hsame : isTracking (gpsTracker w1) = isTracking (gpsTracker w0))
        by (unfold core, view in Hreq; congruence).
      congruence.
    + unfold startTracking_error. cbn [snd]. apply core_handleError.
Qed.

Lemma core_permission_onchange (g : bool) (s : PermissionState) (w : World) :
  core_step g (core w) (core (permission_onchange s w)).
Proof.
  unfold permission_onchange.
  set (w0 := console_print Log "GPS permission changed to:" (state_name s)
               (this (set_permissionState (Some s)) w)).
  change (core w) with (core w0).
  destruct s.
  - destruct (autoStart (options (gpsTracker w0))); [ | apply step_same].
    rewrite core_startTracking_begin. apply step_same.
  - pose proof (core_stopTracking g w0) as Hstop.
    destruct (stopTracking w0) as [[[] | e] w1]; cbn [snd] in Hstop.
    + rewrite core_showWarning. exact Hstop.
    + exact Hstop.
  - apply step_same.
Qed.

(** Every piece is a step of the core, and a guarded one unless it is the
    success callback on its own. *)
Lemma exec_core (act : Action) (w : World) :
  core_step (awaited act) (core w) (core (exec act w)).
Proof.
  destruct act as [q | q g | | | q | | | p | e | p | e | s | | r | now];
    cbn [exec awaited].
  - rewrite core_initialize. apply step_same.
  - apply core_startTracking.
  - apply core_stopTracking.
  - rewrite core_initialize_begin. apply step_same.
  - rewrite core_initialize_resume. apply step_same.
  - rewrite core_startTracking_begin. apply step_same.
  - rewrite (proj1 (core_startTracking_request w)). apply step_same.
  - apply core_startTracking_success. discriminate.
  - unfold startTracking_error. cbn [snd]. apply core_handleError.
  - apply core_handlePosition.
  - apply core_handleError.
  - apply core_permission_onchange.
  - rewrite core_interval_callback. apply step_same.
  - rewrite core_savePositionToBackend_resume. apply step_same.
  - apply step_same.
Qed.





(** What a [stopTracking()] that completes makes of the page. *)
Lemma stopTracking_state (w : World) :
  geolocation w = true ->
  let w' := snd (stopTracking w) in
  fst (stopTracking w) = Normal tt /\
  core w' = (stopped_view (view w), lastPosition (gpsTracker w),
             userConsent (gpsTracker w)) /\
  geolocation w' = true /\
  initialized (gpsTracker w') = initialized (gpsTracker w) /\
  next_watch w' = next_watch w /\
  next_timer w' = next_timer w.
Proof.
  world w. cbn [geolocation]. intros Hgeo. subst geo.
  destruct wid as [id | ], iid as [ | | tid]; repeat split; reflexivity.
Qed.

(** X12. Starting and then stopping gives back what was taken: from an
    idle tracker with nothing subscribed, an awaited [startTracking()]
    answered by a position and then [stopTracking()] leave no subscription
    and no timer; the last position and the consent stay, and a further
    [startTracking()] answered by a position tracks again with fresh
    handles. *)
Theorem start_stop_start
    (q : PermissionQuery) (p p' : Position num) (w : World) :
  geolocation w = true ->
  idle (gpsTracker w) ->
  watches w = [] ->
  timers w = [] ->
  let started := snd (startTracking q (geo_position p) w) in
  let stopped := snd (stopTracking started) in
  let restarted := startTracking q (geo_position p') stopped in
  fst (stopTracking started) = Normal tt /\
  idle (gpsTracker stopped) /\
  watches stopped = [] /\ timers stopped = [] /\
  lastPosition (gpsTracker stopped) = Some p /\
  userConsent (gpsTracker stopped) = true /\
  fst restarted = Resolved true /\
  watches (snd restarted) = [(next_watch w + 1)%Z] /\
  timers (snd restarted) = [Pos.succ (next_timer w)] /\
  watchId (gpsTracker (snd restarted)) = Some (next_watch w + 1)%Z /\
  lastPosition (gpsTracker (snd restarted)) = Some p'.
Proof.
  intros Hgeo (Htr & _ & _) Hws Hts started stopped restarted.
  destruct (startTracking_success_state q p w Hgeo Htr)
    as ((_ & Htr1 & Huc1 & Hlp1 & Hwid1 & Hiid1 & Hws1 & Hts1 & _)
        & Hgeo1 & Hini1 & Hnw1 & Hnt1).
  fold started in Htr1, Huc1, Hlp1, Hwid1, Hiid1, Hws1, Hts1, Hgeo1, Hini1, Hnw1, Hnt1.
  rewrite Hws in Hws1. rewrite Hts in Hts1. cbn [app] in Hws1, Hts1.
  destruct (stopTracking_state started Hgeo1)
    as (Hnormal & Hcore & Hgeo2 & _ & Hnw2 & Hnt2).
  fold stopped in Hcore, Hgeo2, Hnw2, Hnt2.
  unfold core, view in Hcore.
  rewrite Hwid1, Hiid1, Hws1, Hts1, Hlp1, Huc1 in Hcore.
  cbn [stopped_view filter] in Hcore.
  rewrite Z.eqb_refl, Pos.eqb_refl in Hcore. cbn [negb] in Hcore.
  injection Hcore as Hwid2 Htr2 Hiid2 Hws2 Hts2 Hlp2 Huc2.
  destruct (startTracking_success_state q p' stopped Hgeo2 Htr2)
    as ((Hres & _ & _ & Hlp3 & Hwid3 & _ & Hws3 & Hts3 & _) & _).
  fold restarted in Hres, Hlp3, Hwid3, Hws3, Hts3.
  rewrite Hws2, Hnw2, Hnw1 in Hws3. rewrite Hts2, Hnt2, Hnt1 in Hts3.
  rewrite Hnw2, Hnw1 in Hwid3.
  unfold idle, has_timer. rewrite Hiid2.
  repeat split; assumption.
Qed.

(** Nothing of a tracking is held before there is a last position. *)
Lemma core_step_quiet (g : bool) (c c' : @Core num) :
  core_step g c c' -> quiet c -> quiet c'.
Proof.
  intros Hstep. inversion Hstep; subst; clear Hstep; unfold quiet;
    try (intros Hq; exact Hq).
  - destruct v as [[[[wid tr] iid] ws] ts]. intros Hq Hnone.
    destruct (Hq Hnone) as (Htr & _ & Hwid & Htimer & Hws & Hts).
    repeat split; assumption.
  - destruct v as [[[[wid tr] iid] ws] ts]. intros _ Hnone. discriminate Hnone.
  - destruct v as [[[[wid tr] iid] ws] ts]. cbn. intros Hq Hnone.
    destruct (Hq Hnone) as (Htr & Huc & Hwid & Htimer & Hws & Hts). subst.
    destruct iid as [ | | tid]; try discriminate Htimer;
      repeat split; reflexivity.
  - intros _ Hnone. discriminate Hnone.
  - destruct v as [[[[wid tr] iid] ws] ts]. intros _ Hnone. discriminate Hnone.
Qed.

Lemma run_quiet (acts : list Action) (w : World) :
  quiet (core w) -> quiet (core (run acts w)).
Proof.
  revert w. induction acts as [ | act acts IH]; intros w Hq.
  - exact Hq.
  - cbn [run fold_left]. apply IH.
    exact (core_step_quiet (exec_core act w) Hq).
Qed.

(** X13. In every run of a loaded page, a tracker that is tracking, or has
    the consent, a subscription or a timer, has a last position; so the
    check of the last position in the timer callback never fails and every
    tick of the timer asks for a position. *)
Theorem tracking_has_last_position
    (b : Browser) (o : OptionsArg num) (acts : list Action) :
  let w := run acts (load b o) in
  holds_tracking w ->
  lastPosition (gpsTracker w) <> None /\
  (geolocation w = true -> oneshots (interval_callback w) = S (oneshots w)).
Proof.
  intros w Hholds.
  assert (Hquiet : quiet (core w)).
  { apply run_quiet. intros _. repeat split; reflexivity. }
  assert (Hlast : lastPosition (gpsTracker w) <> None).
  { intros Hnone. unfold quiet, core, view in Hquiet.
    destruct (Hquiet Hnone) as (Htr & Huc & Hwid & Htimer & Hws & Hts).
    unfold holds_tracking, has_timer in Hholds.
    destruct Hholds as [Hx | [Hx | [Hx | [Hx | [Hx | Hx]]]]]; congruence. }
  split; [exact Hlast | ].
  intros Hgeo. unfold interval_callback.
  destruct (lastPosition (gpsTracker w)); [ | congruence].
  rewrite Hgeo. reflexivity.
Qed.

(** X14. Rejected samples leave no trace: a row of positions each of which
    the filter rejects against the last accepted position leaves the whole
    page as it was, however many they are; the reference point does not
    creep. *)
Theorem handlePositions_rejected (ps : list (Position num)) (w : World) :
  Forall (fun p => shouldSavePosition (gpsTracker w) p = false) ps ->
  handlePositions ps w = w.
Proof.
  induction 1 as [ | p ps Hp _ IH].
  - reflexivity.
  - unfold handlePositions. cbn [fold_left].
    rewrite (handlePosition_reject p w Hp). exact IH.
Qed.

(** X15. When the permission changes to denied in a browser with
    geolocation, the tracker stops: it is idle, its subscription and timer
    are cancelled, the permission state is recorded and one warning is
    shown.  The last position and the consent flag stay as they were. *)
Theorem permission_denied_stops (w : World) :
  geolocation w = true ->
  let w' := permission_onchange denied w in
  idle (gpsTracker w') /\
  permissionState (gpsTracker w') = Some denied /\
  (forall id, watchId (gpsTracker w) = Some id -> ~ In id (watches w')) /\
  (forall id, intervalId (gpsTracker w) = timer_id id -> ~ In id (timers w')) /\
  lastPosition (gpsTracker w') = lastPosition (gpsTracker w) /\
  userConsent (gpsTracker w') = userConsent (gpsTracker w) /\
  List.length (warnings w') = S (List.length (warnings w)).
Proof.
  intros Hgeo w'. subst w'. unfold permission_onchange.
  set (w0 := console_print Log "GPS permission changed to:" (state_name denied)
               (this (set_permissionState (Some denied)) w)).
  assert (Hgeo0 : geolocation w0 = true) by exact Hgeo.
  destruct (stopTracking_cancels w0 Hgeo0)
    as (Hnormal & Hidle & Hwatch & Htimer & Hlast & _ & _).
  assert (Hkept : permissionState (gpsTracker (snd (stopTracking w0))) = Some denied /\
                  userConsent (gpsTracker (snd (stopTracking w0))) =
                    userConsent (gpsTracker w) /\
                  warnings (snd (stopTracking w0)) = warnings w).
  { subst w0. clear. world w.
    destruct wid as [id | ]; [destruct geo | ]; destruct iid as [ | | tid];
      step; repeat split; try reflexivity; warn_tac; reflexivity. }
  destruct Hkept as (Hperm & Hconsent & Hwarn).
  destruct (stopTracking w0) as [[[] | e] w1]; cbn [fst snd] in *;
    [ | discriminate Hnormal].
  match goal with
  | |- context [showWarning ?m w1] =>
      destruct (showWarning_effect m w1) as (Ht & Hws & Hts & _ & Hwarn' & _)
  end.
  rewrite Ht, Hws, Hts, Hwarn', Hwarn, length_app. cbn [List.length].
  repeat split; try assumption; try (apply Hidle); try lia.
Qed.

(** X16. Every error, whatever its code, shows exactly one warning and
    touches no subscription, timer or event; the tracker changes only for
    the code [PERMISSION_DENIED], and a code that is none of the three
    known ones gets the text for unknown errors. *)
Theorem handleError_every_code (e : PositionError) (w : World) :
  let w' := handleError e w in
  List.length (warnings w') = S (List.length (warnings w)) /\
  watches w' = watches w /\ timers w' = timers w /\ events w' = events w /\
  (code e <> PERMISSION_DENIED -> gpsTracker w' = gpsTracker w) /\
  (code e <> PERMISSION_DENIED -> code e <> POSITION_UNAVAILABLE ->
   code e <> TIMEOUT ->
   warnings w' = (warnings w ++ [(Warn, "GPS Warning:", "Unknown location error.")])%list).
Proof.
  intros w'. subst w'.
  destruct (handleError_notifies e w) as (m & _ & Ht & Hws & Hts & Hes & Hwarn & _).
  rewrite Hws, Hts, Hes, Hwarn, length_app. cbn [List.length].
  repeat split; try lia.
  - intros Hcode. rewrite Ht. apply Z.eqb_neq in Hcode. rewrite Hcode. reflexivity.
  - intros H1 H2 H3. rewrite <- Hwarn. clear Hwarn Ht Hws Hts Hes.
    apply Z.eqb_neq in H1, H2, H3. unfold handleError. rewrite H1, H2, H3.
    world w. destruct sm; step; warn_tac; reflexivity.
Qed.

Lemma page_load_tracking
    (q : PermissionQuery) (g : GeoResult num) (st : Storage)
    (b : Browser) (o : OptionsArg num) :
  isTracking (gpsTracker (on_DOMContentLoaded q g st (load b o))) =
  browser_geolocation b && has_token st && is_position g.
Proof.
  unfold on_DOMContentLoaded, has_token.
  assert (Hinit : fst (initialize q (load b o)) = browser_geolocation b /\
                  isTracking (gpsTracker (snd (initialize q (load b o)))) = false /\
                  geolocation (snd (initialize q (load b o))) = browser_geolocation b).
  { destruct b as [geo fw ft a sm ck]. destruct geo, sm, q; repeat split; reflexivity. }
  destruct (initialize q (load b o)) as [initialized w1].
  cbn [fst snd] in Hinit. destruct Hinit as (-> & Htr1 & Hgeo1).
  set (w2 := console_print Log "GPS Tracker initialized:"
               (bool_name (browser_geolocation b)) w1).
  assert (Htr2 : isTracking (gpsTracker w2) = false) by exact Htr1.
  assert (Hgeo2 : geolocation w2 = browser_geolocation b) by exact Hgeo1.
  destruct (getItem "st_token" st) as [token | err].
  - destruct (truthy token); cbn [andb].
    + destruct (browser_geolocation b) eqn:Hgeo; cbn [andb].
      * destruct g as [p | e]; cbn [is_position].
        -- destruct (startTracking_success_state q p w2 Hgeo2 Htr2)
             as ((Hres & Htr & _) & _).
           destruct (startTracking q (geo_position p) w2) as [[success | e | ] w3];
             cbn [fst snd] in *; try discriminate Hres. exact Htr.
        -- destruct (startTracking_failure_state q e w2 Hgeo2 Htr2)
             as (Hres & Htr & _).
           destruct (startTracking q (geo_error e) w2) as [[success | e' | ] w3];
             cbn [fst snd] in *; try discriminate Hres. exact Htr.
      * exact Htr2.
    + rewrite andb_false_r. exact Htr2.
  - rewrite andb_false_r. exact Htr2.
Qed.

(** X17. On page load the tracker ends up tracking exactly when the browser
    has geolocation, a non-empty token can be read from [localStorage] and
    the first position request is answered by a position. *)
Theorem on_DOMContentLoaded_tracking
    (q : PermissionQuery) (g : GeoResult num) (st : Storage)
    (b : Browser) (o : OptionsArg num) :
  isTracking (gpsTracker (on_DOMContentLoaded q g st (load b o))) =
  browser_geolocation b && has_token st && is_position g.
Proof. exact (page_load_tracking q g st b o). Qed.

End LifecycleMore.

(** ** The API client *)

Section AssocFacts.
Context {V : Type}.

Lemma assoc_get_set_same (k : string) (v : V) (l : list (string * V)) :
  assoc_get k (assoc_set k v l) = Some v.
Proof.
  induction l as [ | [k0 v0] l IH]; cbn.
  - rewrite String.eqb_refl. reflexivity.
  - destruct (String.eqb k0 k) eqn:Hk; cbn; rewrite Hk; [reflexivity | exact IH].
Qed.

Lemma assoc_get_set_other (k k' : string) (v : V) (l : list (string * V)) :
  k' <> k -> assoc_get k' (assoc_set k v l) = assoc_get k' l.
Proof.
  intros Hneq. induction l as [ | [k0 v0] l IH]; cbn.
  - destruct (String.eqb k k') eqn:Hk; [ | reflexivity].
    apply String.eqb_eq in Hk. congruence.
  - destruct (String.eqb k0 k) eqn:Hk; cbn.
    + apply String.eqb_eq in Hk. subst k0.
      destruct (String.eqb k k') eqn:Hk'; [ | reflexivity].
      apply String.eqb_eq in Hk'. congruence.
    + destruct (String.eqb k0 k'); [reflexivity | exact IH].
Qed.

Lemma assoc_get_remove_same (k : string) (l : list (string * V)) :
  assoc_get k (assoc_remove k l) = None.
Proof.
  induction l as [ | [k0 v0] l IH]; cbn; [reflexivity | ].
  destruct (String.eqb k0 k) eqn:Hk; cbn; [exact IH | ].
  rewrite Hk. exact IH.
Qed.

Lemma assoc_get_remove_other (k k' : string) (l : list (string * V)) :
  k' <> k -> assoc_get k' (assoc_remove k l) = assoc_get k' l.
Proof.
  intros Hneq. induction l as [ | [k0 v0] l IH]; cbn; [reflexivity | ].
  destruct (String.eqb k0 k) eqn:Hk; cbn.
  - apply String.eqb_eq in Hk. subst k0.
    destruct (String.eqb k k') eqn:Hk'; [ | exact IH].
    apply String.eqb_eq in Hk'. congruence.
  - destruct (String.eqb k0 k'); [reflexivity | exact IH].
Qed.

End AssocFacts.

Section TokenHelpers.

(** X18. With a working storage the token helpers round-trip: after
    [setToken(t)], [getToken()] returns [t] and every other key reads as
    before, and after [clearToken()] it returns [null]; none of them writes
    to the console. *)
Theorem token_round_trip (t : string) (st : Storage) :
  storage_mode st = storage_working ->
  let st1 := fst (Api.setToken t st) in
  snd (Api.setToken t st) = [] /\
  Api.getToken st1 = (Some t, []) /\
  (forall k, k <> Api.TOKEN_KEY -> getItem k st1 = getItem k st) /\
  Api.getToken (fst (Api.clearToken st1)) = (None, []) /\
  (forall k, k <> Api.TOKEN_KEY ->
             getItem k (fst (Api.clearToken st1)) = getItem k st).
Proof.
  destruct st as [mode items]. cbn [storage_mode]. intros ->.
  unfold Api.setToken, Api.getToken, Api.clearToken, setItem, getItem, removeItem.
  cbn. rewrite assoc_get_set_same, assoc_get_remove_same.
  repeat split; try reflexivity; intros k Hk.
  - rewrite assoc_get_set_other by exact Hk. reflexivity.
  - rewrite assoc_get_remove_other, assoc_get_set_other by exact Hk. reflexivity.
Qed.

(** X19. The token helpers never throw and a storage that refuses leaves
    things as they are: on a storage that is full or blocked [setToken]
    changes nothing, so an older token stays, and writes one warning; on a
    blocked storage [getToken] returns [null] and [clearToken] removes
    nothing, each with one warning. *)
Theorem token_helpers_on_refusing_storage (t : string) (st : Storage) :
  (storage_mode st <> storage_working ->
   fst (Api.setToken t st) = st /\
   exists e, snd (Api.setToken t st) = [(Warn, "Cannot save token:", e)]) /\
  (storage_mode st = storage_blocked ->
   Api.getToken st = (None, [(Warn, "Cannot get token:", "SecurityError")]) /\
   Api.clearToken st = (st, [(Warn, "Cannot clear token:", "SecurityError")])).
Proof.
  destruct st as [mode items]. cbn [storage_mode]. split.
  - intros Hmode. destruct mode; [congruence | | ];
      (split; [reflexivity | eexists; reflexivity]).
  - intros ->. split; reflexivity.
Qed.

End TokenHelpers.

Section RequestFacts.
Context {num : Type}.
Variable falsy_number : num -> bool.
Variable JSON_parse : string -> Completion (JSVal num).

(** The token a request goes out with. *)
Lemma request_prepare_cases (base method path : string) (body : Body num)
    (opts : RequestOpts) (st : Storage) :
  (truthy (opts_token opts) = false /\ storage_mode st = storage_blocked /\
   Api.request_prepare base method path body opts st = Throw "SecurityError") \/
  exists token,
    (token = (if truthy (opts_token opts) then opts_token opts
              else if truthy (assoc_get Api.TOKEN_KEY (storage_items st))
                   then assoc_get Api.TOKEN_KEY (storage_items st) else None)) /\
    (truthy (opts_token opts) = true \/ storage_mode st <> storage_blocked) /\
    Api.request_prepare base method path body opts st =
    Normal
      (mkFetchCall (base ++ path)%string method
         (let headers := or_default (opts_headers opts) [] in
          let headers :=
            match body with
            | body_value _ => assoc_set "Content-Type" "application/json" headers
            | _ => headers
            end in
          match token with
          | Some t => assoc_set "Authorization" ("Bearer " ++ t)%string headers
          | None => headers
          end)
         "include"
         (match body with body_null => None | b => Some b end)
         (match opts_timeout opts with
          | Some t => if (t =? 0)%Z then 15000%Z else t
          | None => 15000%Z
          end)).
Proof.
  unfold Api.request_prepare.
  destruct (truthy (opts_token opts)) eqn:Htoken.
  - right. eexists. split; [reflexivity | ]. split; [left; reflexivity | reflexivity].
  - unfold getItem. destruct st as [mode items]. cbn [storage_mode storage_items].
    destruct mode.
    + right. eexists. split; [reflexivity | ].
      split; [right; discriminate | reflexivity].
    + right. eexists. split; [reflexivity | ].
      split; [right; discriminate | reflexivity].
    + left. repeat split; reflexivity.
Qed.

(** X20. [request] is rejected in one case only: no token is passed in the
    options and reading [localStorage] throws.  A token passed in the
    options is used without touching the storage. *)
Theorem request_rejected_iff (base method path : string) (body : Body num)
    (opts : RequestOpts) (st : Storage) (o : FetchOutcome) :
  (exists e, Api.request falsy_number JSON_parse base method path body opts st o = Throw e)
  <->
  (truthy (opts_token opts) = false /\ storage_mode st = storage_blocked).
Proof.
  unfold Api.request.
  destruct (request_prepare_cases base method path body opts st)
    as [(Htoken & Hmode & Heq) | (token & _ & Hok & Heq)]; rewrite Heq.
  - split; [intros _; split; assumption | intros _; eexists; reflexivity].
  - split.
    + intros [e He]. discriminate He.
    + intros [Htoken Hmode]. destruct Hok as [Hok | Hok]; congruence.
Qed.

(** X21. A value sent as JSON always goes out with the content type
    [application/json], whatever content type the caller put in the
    headers; for no body and for a [FormData] the caller's content type, if
    any, is left alone. *)
Theorem request_content_type (base method path : string) (body : Body num)
    (opts : RequestOpts) (st : Storage) (call : FetchCall num) :
  Api.request_prepare base method path body opts st = Normal call ->
  assoc_get "Content-Type" (fetch_headers call) =
  match body with
  | body_value _ => Some "application/json"
  | _ => assoc_get "Content-Type" (or_default (opts_headers opts) [])
  end.
Proof.
  intros Hcall.
  destruct (request_prepare_cases base method path body opts st)
    as [(_ & _ & Heq) | (token & _ & _ & Heq)]; rewrite Heq in Hcall;
    [discriminate Hcall | ].
  injection Hcall as <-. cbn [fetch_headers].
  destruct token as [t | ].
  - rewrite assoc_get_set_other by discriminate.
    destruct body; [reflexivity | reflexivity | apply assoc_get_set_same].
  - destruct body; [reflexivity | reflexivity | apply assoc_get_set_same].
Qed.

(** X22. The [Authorization] header: a non-empty token passed in the
    options wins over the stored one; without it a non-empty stored token
    is used; with neither the header is the caller's, if any. *)
Theorem request_authorization (base method path : string) (body : Body num)
    (opts : RequestOpts) (st : Storage) (call : FetchCall num) :
  Api.request_prepare base method path body opts st = Normal call ->
  assoc_get "Authorization" (fetch_headers call) =
  match (if truthy (opts_token opts) then opts_token opts
         else if truthy (assoc_get Api.TOKEN_KEY (storage_items st))
              then assoc_get Api.TOKEN_KEY (storage_items st) else None) with
  | Some t => Some ("Bearer " ++ t)%string
  | None => assoc_get "Authorization" (or_default (opts_headers opts) [])
  end.
Proof.
  intros Hcall.
  destruct (request_prepare_cases base method path body opts st)
    as [(_ & _ & Heq) | (token & Htoken & _ & Heq)]; rewrite Heq in Hcall;
    [discriminate Hcall | ].
  injection Hcall as <-. cbn [fetch_headers]. rewrite <- Htoken.
  destruct token as [t | ].
  - apply assoc_get_set_same.
  - destruct body; try reflexivity.
    apply assoc_get_set_other. discriminate.
Qed.

(** X23. What [request] resolves to is never [null]: reading a key of the
    result cannot throw.  For an answer that is ok and whose text is not
    JSON, or is the JSON [null], it is the object [{ok: true}]. *)
Theorem request_result_not_null (o : FetchOutcome) :
  Api.request_complete falsy_number JSON_parse o <> js_null /\
  (forall status text,
     Api.safeParse JSON_parse text = js_null ->
     Api.request_complete falsy_number JSON_parse (fetch_response true status text)
     = js_object [("ok", js_bool true)]).
Proof.
  split.
  - unfold Api.request_complete. destruct o as [ok status text | err].
    + destruct ok.
      * destruct (Api.safeParse JSON_parse text); discriminate.
      * destruct (Api.js_truthy falsy_number (Api.safeParse JSON_parse text)) eqn:Ht;
          [ | discriminate].
        destruct (Api.safeParse JSON_parse text); try discriminate.
    + destruct (String.eqb (err_name err) "AbortError"); discriminate.
  - intros status text Hnull. unfold Api.request_complete. rewrite Hnull. reflexivity.
Qed.

(** X24. A failure always comes back as an object with a non-empty
    [error]: when [fetch] or the reading of the answer fails, and when the
    answer is not ok and its text is not JSON or is a falsy JSON value. *)
Theorem request_failure_has_error (o : FetchOutcome) :
  match o with
  | fetch_failure _ => True
  | fetch_response ok _ text =>
      ok = false /\
      Api.js_truthy falsy_number (Api.safeParse JSON_parse text) = false
  end ->
  exists message,
    Api.request_complete falsy_number JSON_parse o =
      js_object [("error", js_string message)] /\
    message <> "".
Proof.
  unfold Api.request_complete. destruct o as [ok status text | err].
  - intros [-> Hfalsy]. rewrite Hfalsy.
    eexists. split; [reflexivity | ].
    destruct (String.eqb text "") eqn:Htext.
    + discriminate.
    + apply String.eqb_neq in Htext. exact Htext.
  - intros _. destruct (String.eqb (err_name err) "AbortError");
      eexists; (split; [reflexivity | discriminate]).
Qed.

(** X25. The helpers and [request] fit together: on a working storage,
    after [setToken(t)] with a non-empty [t], a request without a token in
    its options carries [Bearer t]; after [clearToken()] it carries no
    authorization of its own. *)
Theorem request_after_setToken (t base method path : string) (body : Body num)
    (headers : option (list (string * string))) (timeout : option Z) (st : Storage) :
  storage_mode st = storage_working ->
  t <> "" ->
  let opts := mkRequestOpts timeout None headers in
  let st1 := fst (Api.setToken t st) in
  let st2 := fst (Api.clearToken st1) in
  (exists call,
     Api.request_prepare base method path body opts st1 = Normal call /\
     assoc_get "Authorization" (fetch_headers call) = Some ("Bearer " ++ t)%string) /\
  (exists call,
     Api.request_prepare base method path body opts st2 = Normal call /\
     assoc_get "Authorization" (fetch_headers call) =
     assoc_get "Authorization" (or_default headers [])).
Proof.
  intros Hmode Ht opts st1 st2.
  assert (Hst1 : storage_mode st1 = storage_working /\
                 assoc_get Api.TOKEN_KEY (storage_items st1) = Some t).
  { subst st1. destruct st as [mode items]. cbn in Hmode. subst mode.
    cbn. split; [reflexivity | apply assoc_get_set_same]. }
  assert (Hst2 : storage_mode st2 = storage_working /\
                 assoc_get Api.TOKEN_KEY (storage_items st2) = None).
  { subst st2. destruct st1 as [mode items]. destruct Hst1 as [Hm _].
    cbn in Hm. subst mode. cbn. split; [reflexivity | apply assoc_get_remove_same]. }
  assert (Htruthy : truthy (Some t) = true).
  { cbn. apply String.eqb_neq in Ht. rewrite Ht. reflexivity. }
  split.
  - destruct (request_prepare_cases base method path body opts st1)
      as [(_ & Hblocked & _) | (token & Htoken & _ & Heq)].
    + destruct Hst1 as [Hm _]. congruence.
    + exists (mkFetchCall (base ++ path)%string method
                (let hs := or_default headers [] in
                 let hs := match body with
                           | body_value _ => assoc_set "Content-Type" "application/json" hs
                           | _ => hs
                           end in
                 match token with
                 | Some t0 => assoc_set "Authorization" ("Bearer " ++ t0)%string hs
                 | None => hs
                 end)
                "include" (match body with body_null => None | b => Some b end)
                (match timeout with
                 | Some t0 => if (t0 =? 0)%Z then 15000%Z else t0
                 | None => 15000%Z
                 end)).
      split; [exact Heq | ].
      cbn [opts opts_token truthy] in Htoken.
      destruct Hst1 as [_ Hget]. rewrite Hget, Htruthy in Htoken. subst token.
      cbn [fetch_headers]. apply assoc_get_set_same.
  - destruct (request_prepare_cases base method path body opts st2)
      as [(_ & Hblocked & _) | (token & Htoken & _ & Heq)].
    + destruct Hst2 as [Hm _]. congruence.
    + eexists. split; [exact Heq | ].
      cbn [opts opts_token truthy] in Htoken.
      destruct Hst2 as [_ Hget]. rewrite Hget in Htoken. cbn in Htoken. subst token.
      cbn [fetch_headers opts opts_headers].
      destruct body; try reflexivity.
      apply assoc_get_set_other. discriminate.
Qed.

End RequestFacts.

(** ** The page of the forms *)

Section AppFacts.
Import App.

Ltac page p :=
  destruct p as [ts tl sf lf pv si ma cr sc pc sp lg st].

(** *** Sets *)

Lemma set_has_delete_same (x : string) (s : list string) :
  set_has x (set_delete x s) = false.
Proof.
  unfold set_has, set_delete. induction s as [ | y s IH]; cbn; [reflexivity | ].
  destruct (String.eqb y x) eqn:Hyx; cbn; [exact IH | ].
  rewrite String.eqb_sym, Hyx. exact IH.
Qed.

Lemma set_has_delete_other (x y : string) (s : list string) :
  y <> x -> set_has y (set_delete x s) = set_has y s.
Proof.
  intros Hneq. unfold set_has, set_delete.
  induction s as [ | z s IH]; cbn; [reflexivity | ].
  destruct (String.eqb z x) eqn:Hzx; cbn.
  - apply String.eqb_eq in Hzx. subst z.
    apply String.eqb_neq in Hneq. rewrite Hneq. exact IH.
  - rewrite IH. reflexivity.
Qed.

Lemma set_has_app (x : string) (s s' : list string) :
  set_has x (s ++ s') = set_has x s || set_has x s'.
Proof. unfold set_has. apply existsb_app. Qed.

Lemma set_has_add_same (x : string) (s : list string) :
  set_has x (set_add x s) = true.
Proof.
  unfold set_add. destruct (set_has x s) eqn:Hhas; [exact Hhas | ].
  rewrite set_has_app, Hhas. cbn. rewrite String.eqb_refl. reflexivity.
Qed.

Lemma set_has_add_other (x y : string) (s : list string) :
  y <> x -> set_has y (set_add x s) = set_has y s.
Proof.
  intros Hneq. unfold set_add. destruct (set_has x s); [reflexivity | ].
  rewrite set_has_app. cbn. apply String.eqb_neq in Hneq. rewrite Hneq.
  rewrite !orb_false_r. reflexivity.
Qed.





(** *** The selection *)

Lemma showMessage_selection (text type : string) (timeout : Z) (p : Page) :
  selectedPrefs (showMessage text type timeout p) = selectedPrefs p /\
  prefsContainer (showMessage text type timeout p) = prefsContainer p.
Proof. page p. destruct ma; split; reflexivity. Qed.




(** *** The buttons *)

Lemma set_nth_selected_prefs (i : nat) (v : bool) (bs : list PrefButton) :
  map button_pref (set_nth_selected i v bs) = map button_pref bs.
Proof.
  revert i. induction bs as [ | b bs IH]; intros i; [destruct i; reflexivity | ].
  destruct i as [ | j]; cbn; [reflexivity | ]. rewrite IH. reflexivity.
Qed.

Lemma set_nth_selected_In (i : nat) (v : bool) (bs : list PrefButton)
    (b b' : PrefButton) :
  NoDup (map button_pref bs) ->
  nth_error bs i = Some b ->
  In b' (set_nth_selected i v bs) ->
  b' = mkPrefButton (button_pref b) v \/
  (In b' bs /\ button_pref b' <> button_pref b).
Proof.
  revert i. induction bs as [ | a bs IH]; intros i Hnodup Hnth Hin.
  - destruct i; discriminate Hnth.
  - cbn [map] in Hnodup. apply NoDup_cons_iff in Hnodup as [Hfresh Hnodup].
    destruct i as [ | j]; cbn in Hnth, Hin.
    + injection Hnth as <-. destruct Hin as [<- | Hin]; [left; reflexivity | ].
      right. split; [right; exact Hin | ].
      intros Heq. apply Hfresh. rewrite <- Heq. apply in_map. exact Hin.
    + destruct Hin as [<- | Hin].
      * right. split; [left; reflexivity | ].
        intros Heq. apply Hfresh. rewrite Heq. apply in_map.
        apply nth_error_In with j. exact Hnth.
      * destruct (IH j Hnodup Hnth Hin) as [Heq | [Hin' Hneq]];
          [left; exact Heq | right; split; [right; exact Hin' | exact Hneq]].
Qed.

Lemma pref_click_shows (i : nat) (p : Page) :
  distinct_prefs p -> buttons_show_selection p ->
  distinct_prefs (pref_click i p) /\ buttons_show_selection (pref_click i p).
Proof.
  intros Hdistinct Hshows. unfold pref_click.
  destruct (prefsContainer p) as [buttons | ] eqn:Hcontainer; [ | split; assumption].
  destruct (nth_error buttons i) as [button | ] eqn:Hnth; [ | split; assumption].
  pose proof (Hdistinct buttons Hcontainer) as Hnodup.
  destruct (set_has (button_pref button) (selectedPrefs p)) eqn:Hhas.
  - split.
    + intros bs Hbs. page p. cbn [prefsContainer selectedPrefs with_prefs] in *. injection Hbs as <-.
      rewrite set_nth_selected_prefs. exact Hnodup.
    + intros bs b' Hbs Hin. page p. cbn [prefsContainer selectedPrefs with_prefs] in *. injection Hbs as <-.
      destruct (@set_nth_selected_In i false buttons button b' Hnodup Hnth Hin)
        as [-> | [Hin' Hneq]]; cbn [button_selected button_pref].
      * symmetry. apply set_has_delete_same.
      * rewrite set_has_delete_other by exact Hneq.
        apply (Hshows buttons b' Hcontainer Hin').
  - destruct (Nat.leb MAX_PREFS (List.length (selectedPrefs p))).
    + destruct (showMessage_selection "Maximum 5 preferences allowed" "error" 2000 p)
        as [Hsel Hcont].
      unfold distinct_prefs, buttons_show_selection. rewrite Hsel, Hcont.
      split; assumption.
    + split.
      * intros bs Hbs. page p. cbn [prefsContainer selectedPrefs with_prefs] in *. injection Hbs as <-.
        rewrite set_nth_selected_prefs. exact Hnodup.
      * intros bs b' Hbs Hin. page p. cbn [prefsContainer selectedPrefs with_prefs] in *. injection Hbs as <-.
        destruct (@set_nth_selected_In i true buttons button b' Hnodup Hnth Hin)
          as [-> | [Hin' Hneq]]; cbn [button_selected button_pref].
        -- symmetry. apply set_has_add_same.
        -- rewrite set_has_add_other by exact Hneq.
           apply (Hshows buttons b' Hcontainer Hin').
Qed.

Lemma quiet_events_prefs (e : Event) (p : Page) :
  match e with
  | click_pref _ | meta_answer _ => False
  | _ => True
  end ->
  prefsContainer (handle e p) = prefsContainer p /\
  selectedPrefs (handle e p) = selectedPrefs p.
Proof.
  destruct e as [i | tab | | answer | id]; cbn [handle]; intros Hquiet;
    try contradiction; page p.
  - unfold setActiveTab.
    destruct (String.eqb tab "signup"); [split; reflexivity | ].
    destruct (String.eqb tab "login"); split; reflexivity.
  - unfold handleLogout. cbn [storage].
    destruct (removeItem TOKEN_KEY st) as [[[] | err] st']; cbn [snd];
      [ | split; reflexivity].
    destruct ma, si; split; reflexivity.
  - unfold message_timeout. cbn [messageArea].
    destruct ma as [children | ]; [ | split; reflexivity].
    destruct (existsb _ children); split; reflexivity.
Qed.

Lemma loadMeta_shows (answer : MetaAnswer) (st : Storage) :
  match answer with
  | meta_ok _ (Some prefs) => NoDup prefs
  | _ => True
  end ->
  distinct_prefs (loadMeta_resume answer (blank st)) /\
  buttons_show_selection (loadMeta_resume answer (blank st)).
Proof.
  assert (Hbuttons : forall prefs, map button_pref (pref_buttons prefs) = prefs).
  { intros prefs. unfold pref_buttons. rewrite map_map. cbn. apply map_id. }
  assert (Hfresh : forall prefs b, In b (pref_buttons prefs) ->
                                   button_selected b = false).
  { intros prefs b Hin. unfold pref_buttons in Hin. apply in_map_iff in Hin.
    destruct Hin as (x & <- & _). reflexivity. }
  assert (Hfallback : NoDup fallbackPrefs).
  { unfold fallbackPrefs.
    repeat (constructor; [cbn; intuition discriminate | ]). constructor. }
  unfold distinct_prefs, buttons_show_selection.
  destruct answer as [[cs | ] [prefs | ] | err];
    cbn -[pref_buttons fallbackPrefs]; intros Hnodup; split.
  all: try (intros bs Hbs; injection Hbs as <-;
            first [rewrite Hbuttons; assumption | exact Hfallback]).
  all: intros bs b Hbs Hin; injection Hbs as <-;
       first [ apply (Hfresh _ _ Hin)
             | cbn in Hin; intuition (subst b; reflexivity) ].
Qed.

(** X27. Once the preferences are loaded, the buttons show the selection:
    through any sequence of clicks on preference buttons, tab switches,
    logouts and message timers that follows, a button is marked as selected
    exactly when its preference is in the set, provided the backend sent no
    preference twice (the fallback list has none twice). *)
Theorem buttons_show_selection_after_load
    (answer : MetaAnswer) (st : Storage) (es : list Event) :
  match answer with
  | meta_ok _ (Some prefs) => NoDup prefs
  | _ => True
  end ->
  Forall (fun e => match e with meta_answer _ => False | _ => True end) es ->
  buttons_show_selection (handle_all es (loadMeta_resume answer (blank st))).
Proof.
  intros Hanswer Hes.
  destruct (loadMeta_shows answer st Hanswer) as [Hdistinct Hshows].
  revert Hdistinct Hshows. generalize (loadMeta_resume answer (blank st)).
  induction Hes as [ | e es He _ IH]; intros p Hdistinct Hshows.
  - exact Hshows.
  - unfold handle_all. cbn [fold_left]. fold (handle_all es (handle e p)).
    assert (Hstep : distinct_prefs (handle e p) /\ buttons_show_selection (handle e p)).
    { destruct e as [i | tab | | a | id]; try contradiction.
      - apply pref_click_shows; assumption.
      - destruct (quiet_events_prefs (click_tab tab) p I) as [Hc Hs].
        unfold distinct_prefs, buttons_show_selection. rewrite Hc, Hs.
        split; assumption.
      - destruct (quiet_events_prefs click_logout p I) as [Hc Hs].
        unfold distinct_prefs, buttons_show_selection. rewrite Hc, Hs.
        split; assumption.
      - destruct (quiet_events_prefs (timeout_message id) p I) as [Hc Hs].
        unfold distinct_prefs, buttons_show_selection. rewrite Hc, Hs.
        split; assumption. }
    destruct Hstep as [Hd Hs]. apply IH; assumption.
Qed.

(** *** The tabs *)

(** X28. [setActiveTab] shows at most one form and never the profile view:
    the signup form is displayed for the tab ['signup'] only, the login
    form for ['login'] only, and the profile view is hidden for every tab,
    ['profile'] included; the two tab buttons are marked active
    accordingly. *)
Theorem setActiveTab_panels (tab : string) (p : Page) :
  let p' := setActiveTab tab p in
  option_map display (signupForm p') =
    option_map (fun _ => if String.eqb tab "signup" then "flex" else "none")
      (signupForm p) /\
  option_map display (loginForm p') =
    option_map (fun _ => if String.eqb tab "login" then "flex" else "none")
      (loginForm p) /\
  option_map display (profileView p') =
    option_map (fun _ => "none") (profileView p) /\
  option_map (fun e => set_has "active" (classList e)) (tabSignup p') =
    option_map (fun _ => String.eqb tab "signup") (tabSignup p) /\
  option_map (fun e => set_has "active" (classList e)) (tabLogin p') =
    option_map (fun _ => String.eqb tab "login") (tabLogin p).
Proof.
  page p. unfold setActiveTab.
  cbn -[set_has set_add set_delete String.eqb].
  destruct (String.eqb tab "signup") eqn:Hsignup;
    [ apply String.eqb_eq in Hsignup; subst tab
    | destruct (String.eqb tab "login") eqn:Hlogin ];
    destruct ts, tl, sf, lf, pv; cbn -[set_has set_add set_delete];
    rewrite ?set_has_add_same, ?set_has_delete_same; repeat split; reflexivity.
Qed.

(** *** The message area *)

(** X29. The message area holds the last message only: [showMessage]
    replaces what was there by the new message, the timer of an earlier
    message does not remove it, and its own timer empties the area. *)
Theorem showMessage_replaces (text type : string) (timeout : Z) (p : Page)
    (children : list MessageEl) :
  messageArea p = Some children ->
  let p' := showMessage text type timeout p in
  messageArea p' = Some [mkMessageEl (created p) ("message " ++ type)%string text] /\
  (forall id, id <> created p -> message_timeout id p' = p') /\
  messageArea (message_timeout (created p) p') = Some [].
Proof.
  page p. cbn [messageArea]. intros ->. unfold showMessage, message_timeout. cbn.
  split; [reflexivity | split].
  - intros id Hid. apply Nat.eqb_neq in Hid. rewrite Nat.eqb_sym, Hid. reflexivity.
  - rewrite Nat.eqb_refl. reflexivity.
Qed.

(** *** Logging out *)

(** X30. A logout that completes removes the token and nothing else from
    [localStorage]; the login form is shown and the selection is kept.
    The next page load therefore does not start the tracker.  On a blocked
    storage the handler throws at its first line and changes nothing. *)
Theorem handleLogout_token (p : Page) :
  (storage_mode (storage p) <> storage_blocked ->
   let p' := snd (handleLogout p) in
   fst (handleLogout p) = Normal tt /\
   getItem TOKEN_KEY (storage p') = Normal None /\
   (forall k, k <> TOKEN_KEY -> getItem k (storage p') = getItem k (storage p)) /\
   has_token (storage p') = false /\
   option_map display (loginForm p') = option_map (fun _ => "flex") (loginForm p) /\
   selectedPrefs p' = selectedPrefs p /\
   (forall num (H : JSNumber num) q (g : GeoResult num) b o,
      isTracking (gpsTracker (on_DOMContentLoaded q g (storage p') (load b o))) = false)) /\
  (storage_mode (storage p) = storage_blocked ->
   handleLogout p = (Throw "SecurityError", p)).
Proof.
  page p. cbn [storage]. destruct st as [mode items]. cbn [storage_mode]. split.
  - intros Hmode.
    assert (Hstorage : storage (snd (handleLogout
              (mkPage ts tl sf lf pv si ma cr sc pc sp lg (mkStorage mode items))))
            = mkStorage mode (assoc_remove TOKEN_KEY items)).
    { unfold handleLogout, removeItem. cbn.
      destruct mode; try congruence; destruct ma, si; reflexivity. }
    assert (Hget : getItem TOKEN_KEY (mkStorage mode (assoc_remove TOKEN_KEY items))
                   = Normal None).
    { unfold getItem. cbn. destruct mode; try congruence;
        rewrite assoc_get_remove_same; reflexivity. }
    cbv zeta. rewrite Hstorage.
    assert (Htoken : has_token (mkStorage mode (assoc_remove TOKEN_KEY items)) = false).
    { unfold has_token. change "st_token" with TOKEN_KEY. rewrite Hget. reflexivity. }
    split; [ | split; [exact Hget | split; [ | split; [exact Htoken | ]]]].
    + unfold handleLogout, removeItem. cbn. destruct mode; try congruence; reflexivity.
    + intros k Hk. unfold getItem. cbn. destruct mode; try congruence;
        rewrite assoc_get_remove_other by exact Hk; reflexivity.
    + split; [ | split].
      * unfold handleLogout, removeItem. cbn.
        destruct mode; try congruence; destruct ma, si, lf, tl; reflexivity.
      * unfold handleLogout, removeItem. cbn.
        destruct mode; try congruence; destruct ma, si; reflexivity.
      * intros num H q g b o. rewrite page_load_tracking, Htoken.
        rewrite andb_false_r. reflexivity.
  - intros ->. reflexivity.
Qed.

End AppFacts.

(** ** Instances of the further properties *)

Unset Implicit Arguments.

Lemma shouldSavePosition_only_coordinates_witness :
  shouldSavePosition (gpsTracker Fixture.tracking) Fixture.one_degree_east =
  shouldSavePosition (gpsTracker Fixture.stopped) Fixture2.east_coarse.
Proof.
  apply (@shouldSavePosition_only_coordinates R RNumber
           (gpsTracker Fixture.tracking) (gpsTracker Fixture.stopped)
           Fixture.origin Fixture.origin Fixture.one_degree_east Fixture2.east_coarse);
    reflexivity.
Defined.

Lemma initialize_outcomes_witness :
  fst (initialize (query_fails "no permissions API") Fixture.fresh) = true /\
  fst (initialize (query_resolves granted) Fixture2.no_geolocation) = false.
Proof.
  split.
  - apply (proj2 (initialize_outcomes (query_fails "no permissions API") Fixture.fresh)).
    reflexivity.
  - apply (proj1 (initialize_outcomes (query_resolves granted) Fixture2.no_geolocation)).
    reflexivity.
Defined.

Lemma startTracking_without_geolocation_witness :
  fst (startTracking (query_resolves granted) (geo_position Fixture.origin)
         Fixture2.no_geolocation)
  = Rejected "TypeError: navigator.geolocation is undefined".
Proof.
  apply (startTracking_without_geolocation (query_resolves granted)
           (geo_position Fixture.origin) Fixture2.no_geolocation);
    reflexivity.
Defined.

Lemma startTracking_first_fix_fails_witness :
  fst (startTracking (query_resolves granted) (geo_error Fixture.permission_denied)
         Fixture.fresh) = Resolved false.
Proof.
  apply (startTracking_first_fix_fails (query_resolves granted)
           Fixture.permission_denied Fixture.fresh);
    reflexivity.
Defined.

Lemma startTracking_first_fix_succeeds_witness :
  lastPosition (gpsTracker Fixture.tracking) = Some Fixture.origin /\
  events Fixture.tracking = [].
Proof.
  pose proof (startTracking_first_fix_succeeds (query_resolves granted)
                Fixture.origin Fixture.fresh eq_refl eq_refl) as Hstart.
  cbv zeta in Hstart.
  destruct Hstart as (_ & _ & _ & Hlast & _ & _ & _ & _ & _ & Hevents & _).
  split; [exact Hlast | exact Hevents].
Defined.

Lemma events_only_from_handlePosition_witness :
  events (exec call_stopTracking Fixture.tracking) = events Fixture.tracking.
Proof.
  apply (proj1 (events_only_from_handlePosition [] Fixture.tracking)).
  reflexivity.
Defined.


Lemma start_stop_start_witness :
  watches (snd (stopTracking Fixture.tracking)) = [] /\
  timers (snd (stopTracking Fixture.tracking)) = [].
Proof.
  pose proof (@start_stop_start R (query_resolves granted) Fixture.origin
                Fixture.one_degree_east Fixture.fresh eq_refl) as Hround.
  assert (Hidle : idle (gpsTracker Fixture.fresh))
    by (unfold idle; repeat split; reflexivity).
  specialize (Hround Hidle eq_refl eq_refl). cbv zeta in Hround.
  destruct Hround as (_ & _ & Hwatches & Htimers & _).
  split; [exact Hwatches | exact Htimers].
Defined.

Lemma tracking_has_last_position_witness :
  lastPosition
    (gpsTracker (run Fixture2.awaited_run (load Fixture.browser global_options)))
  <> None.
Proof.
  apply (tracking_has_last_position Fixture.browser global_options Fixture2.awaited_run).
  left. reflexivity.
Defined.

Lemma handlePositions_rejected_witness :
  handlePositions [Fixture.origin; Fixture.origin; Fixture.origin] Fixture.tracking
  = Fixture.tracking.
Proof.
  apply handlePositions_rejected.
  assert (Hreject : shouldSavePosition (gpsTracker Fixture.tracking) Fixture.origin
                    = false).
  { rewrite (@shouldSavePosition_with_last (gpsTracker Fixture.tracking)
               Fixture.origin Fixture.origin eq_refl).
    apply Rgeb_false.
    change (calculateDistance 0 0 0 0 < 10)%R.
    rewrite calculateDistance_same. lra. }
  repeat constructor; exact Hreject.
Defined.

Lemma permission_denied_stops_witness :
  idle (gpsTracker (permission_onchange denied Fixture.tracking)).
Proof.
  apply (permission_denied_stops Fixture.tracking). reflexivity.
Defined.

Lemma handleError_every_code_witness :
  gpsTracker (handleError Fixture2.strange_error Fixture.tracking)
  = gpsTracker Fixture.tracking.
Proof.
  pose proof (handleError_every_code Fixture2.strange_error Fixture.tracking) as Herror.
  cbv zeta in Herror. destruct Herror as (_ & _ & _ & _ & Hsame & _).
  apply Hsame. discriminate.
Defined.

Lemma token_round_trip_witness :
  Api.getToken (fst (Api.setToken "new" ApiFixture.storage)) = (Some "new", []).
Proof.
  apply (token_round_trip "new" ApiFixture.storage). reflexivity.
Defined.

Lemma token_helpers_on_refusing_storage_witness :
  Api.getToken ApiFixture.blocked =
  (None, [(Warn, "Cannot get token:", "SecurityError")]).
Proof.
  apply (proj2 (token_helpers_on_refusing_storage "new" ApiFixture.blocked)).
  reflexivity.
Defined.

Lemma request_rejected_iff_witness :
  exists e,
    Api.request ApiFixture.falsy_number ApiFixture.JSON_parse "https://x" "GET" "/meta"
      body_null Api.no_opts ApiFixture.blocked (fetch_response true 200 "null")
    = Throw e.
Proof.
  apply (proj2 (request_rejected_iff ApiFixture.falsy_number ApiFixture.JSON_parse
                  "https://x" "GET" "/meta" body_null Api.no_opts ApiFixture.blocked
                  (fetch_response true 200 "null"))).
  split; reflexivity.
Defined.

Lemma request_content_type_witness :
  exists call,
    Api.request_prepare "https://x" "POST" "/login" (body_value (@js_object Z []))
      ApiFixture.json_opts ApiFixture.storage = Normal call /\
    assoc_get "Content-Type" (fetch_headers call) = Some "application/json".
Proof.
  eexists. split; [reflexivity | ].
  apply (@request_content_type Z "https://x" "POST" "/login"
           (body_value (@js_object Z [])) ApiFixture.json_opts ApiFixture.storage).
  reflexivity.
Defined.

Lemma request_authorization_witness :
  exists call,
    Api.request_prepare "https://x" "GET" "/me" (@body_null Z)
      (mkRequestOpts None (Some "mine") None) ApiFixture.storage = Normal call /\
    assoc_get "Authorization" (fetch_headers call) = Some "Bearer mine".
Proof.
  eexists. split; [reflexivity | ].
  apply (@request_authorization Z "https://x" "GET" "/me" body_null
           (mkRequestOpts None (Some "mine") None) ApiFixture.storage).
  reflexivity.
Defined.

Lemma request_result_not_null_witness :
  Api.request_complete ApiFixture.falsy_number ApiFixture.JSON_parse
    (fetch_response true 200 "<html>")
  = js_object [("ok", js_bool true)].
Proof.
  apply (proj2 (request_result_not_null ApiFixture.falsy_number ApiFixture.JSON_parse
                  (fetch_response true 200 "<html>"))).
  reflexivity.
Defined.

Lemma request_failure_has_error_witness :
  exists message,
    Api.request_complete ApiFixture.falsy_number ApiFixture.JSON_parse
      (fetch_response false 502 "0")
    = js_object [("error", js_string message)] /\ message <> "".
Proof.
  apply (request_failure_has_error ApiFixture.falsy_number ApiFixture.JSON_parse
           (fetch_response false 502 "0")).
  split; reflexivity.
Defined.

Lemma request_after_setToken_witness :
  exists call,
    Api.request_prepare "https://x" "GET" "/me" (@body_null Z)
      (mkRequestOpts None None None) (fst (Api.setToken "new" ApiFixture.storage))
    = Normal call /\
    assoc_get "Authorization" (fetch_headers call) = Some "Bearer new".
Proof.
  assert (Hnew : "new" <> "") by discriminate.
  apply (proj1 (@request_after_setToken Z "new" "https://x" "GET" "/me" body_null
                  None None ApiFixture.storage eq_refl Hnew)).
Defined.


Lemma buttons_show_selection_after_load_witness :
  App.buttons_show_selection
    (App.handle_all Fixture2.clicks
       (App.loadMeta_resume (App.meta_failed "offline") (App.blank ApiFixture.storage))).
Proof.
  apply (@buttons_show_selection_after_load (App.meta_failed "offline")
           ApiFixture.storage Fixture2.clicks I).
  unfold Fixture2.clicks. repeat constructor.
Defined.

Lemma showMessage_replaces_witness :
  App.messageArea (App.showMessage "Logged out" "success" 1500 Fixture2.forms)
  = Some [App.mkMessageEl 0 "message success" "Logged out"].
Proof.
  apply (@showMessage_replaces "Logged out" "success" 1500 Fixture2.forms []).
  reflexivity.
Defined.

Lemma handleLogout_token_witness :
  getItem App.TOKEN_KEY (App.storage (snd (App.handleLogout Fixture2.forms)))
  = Normal None.
Proof.
  assert (Hmode : storage_mode (App.storage Fixture2.forms) <> storage_blocked)
    by discriminate.
  pose proof (proj1 (handleLogout_token Fixture2.forms) Hmode) as Hlogout.
  cbv zeta in Hlogout. destruct Hlogout as (_ & Hget & _). exact Hget.
Defined.
